(** * Stock-Market: the ranking index and the rebalancing cycle

    A shallow embedding of [src/bst.py] (the binary search tree that ranks
    stocks by trend) and of [src/bot.py] (trend scoring, ranking and the
    sell/buy cycle of [run_once]), with the properties of the written
    specification stated and proved over it.

    Conventions of the embedding.
    - A Python [float] is an exact rational [Q]: sums, products, quotients
      and comparisons are the mathematical ones.  Rounding, infinities and
      NaN are outside the model.
    - A Python [int] is a [Z].
    - A raised exception is a value of [exn]; code that can raise returns
      [exn + A].
    - The broker and the market-data service are an interface ([Alpaca])
      over an abstract world [W]; every call may answer or raise and may
      change the world. *)

From Stdlib Require Import ZArith QArith Lia Lqa List String Sorted Permutation.
From stdpp Require Import gmap strings list fin_maps sorting.

(** ** src/bst.py *)

Module bst.
Section WithValue.
(** [value: Any] *)
Context {V : Type}.

(** [Optional[BSTNode]]: [None] or a node with its key, value and the two
    subtrees. *)
Inductive BSTNode : Type :=
| NoneNode
| Node (key : Q) (value : V) (left right : BSTNode).

(** [class BST]: the object holds its root. *)
Record BST : Type := mkBST { _root : BSTNode }.

(** [BST.__init__] *)
Definition init : BST := mkBST NoneNode.

(** [BST._insert_rec]: [key > node.key] goes right, anything else left. *)
Fixpoint _insert_rec (node : BSTNode) (key : Q) (value : V) : BSTNode :=
  match node with
  | NoneNode => Node key value NoneNode NoneNode
  | Node k v l r =>
      if Qlt_le_dec k key
      then Node k v l (_insert_rec r key value)
      else Node k v (_insert_rec l key value) r
  end.

(** [BST.insert] *)
Definition insert (self : BST) (key : Q) (value : V) : BST :=
  mkBST (_insert_rec (_root self) key value).

(** [BST._reverse_inorder]: appends to [result] the values of the right
    subtree, then the node's value, then those of the left subtree; the
    list after the call is returned. *)
Fixpoint _reverse_inorder (node : BSTNode) (result : list V) : list V :=
  match node with
  | NoneNode => result
  | Node k v l r =>
      let result := _reverse_inorder r result in
      let result := result ++ [v] in
      _reverse_inorder l result
  end.

(** [BST.get_ranked_descending] *)
Definition get_ranked_descending (self : BST) : list V :=
  _reverse_inorder (_root self) [].

(** [BST._count_less_rec] *)
Fixpoint _count_less_rec (node : BSTNode) (threshold : Q) : Z :=
  match node with
  | NoneNode => 0
  | Node k v l r =>
      let count := if Qlt_le_dec k threshold then 1 else 0 in
      let count := count + _count_less_rec l threshold in
      let count := count + _count_less_rec r threshold in
      count
  end%Z.

(** [BST.count_less_than] *)
Definition count_less_than (self : BST) (threshold : Q) : Z :=
  _count_less_rec (_root self) threshold.

(** The [while node.right is not None] loop of [BST.get_max], started at a
    node whose fields are [k], [v] and [r]. *)
Fixpoint rightmost (k : Q) (v : V) (r : BSTNode) : Q * V :=
  match r with
  | NoneNode => (k, v)
  | Node k' v' _ r' => rightmost k' v' r'
  end.

(** [BST.get_max] *)
Definition get_max (self : BST) : option (Q * V) :=
  match _root self with
  | NoneNode => None
  | Node k v _ r => Some (rightmost k v r)
  end.

(** A sequence of [insert(key, value)] calls, in list order, on a tree. *)
Definition insert_all (self : BST) (kvs : list (Q * V)) : BST :=
  fold_left (fun b kv => insert b (fst kv) (snd kv)) kvs self.

(** The nodes of a tree as (key, value) pairs, in the order in which
    [_reverse_inorder] visits them. *)
Fixpoint nodes_desc (node : BSTNode) : list (Q * V) :=
  match node with
  | NoneNode => []
  | Node k v l r => nodes_desc r ++ (k, v) :: nodes_desc l
  end.

(** The search-tree invariant that [_insert_rec] maintains: keys of the
    right subtree are strictly greater than the node's key, keys of the
    left subtree are less than or equal to it. *)
Fixpoint ordered (node : BSTNode) : Prop :=
  match node with
  | NoneNode => True
  | Node k v l r =>
      Forall (fun kv => (fst kv <= k)%Q) (nodes_desc l) /\
      Forall (fun kv => (k < fst kv)%Q) (nodes_desc r) /\
      ordered l /\ ordered r
  end.
End WithValue.
Arguments BSTNode : clear implicits.
Arguments BST : clear implicits.
End bst.

(** ** src/bot.py *)

Module bot.

(** The messages of the [RuntimeError]s that [get_last_n_closes] raises. *)
Inductive runtime_message : Type :=
| SipNotPermitted
| Unauthorized401
| NotEnoughBars (symbol : string) (need got : Z).

(** What a call into the Alpaca client raises: [APIError] with its message,
    or any other exception, kept by name. *)
Inductive upstream_exn : Type :=
| APIError (msg : string)
| OtherException (name : string).

(** The exceptions that can leave a function of [bot.py]. *)
Inductive exn : Type :=
| Upstream (e : upstream_exn)
| RuntimeError (msg : runtime_message)
| ZeroDivisionError
| IndexError
| ValueError.

(** [Settings] *)
Record Settings : Type := {
  api_key : string;
  api_secret : string;
  paper : bool;
  data_feed : string;
  watchlist : list string;
  cash_start : Q;
  max_shares : Z;
  shares_per_trade : Z;
  wait_days : Z;
  short_window : Z;
  long_window : Z;
}.

(** A value stored under a symbol in [state["last_trade_day"]], by what
    [_parse_day] does with it: a falsy value (empty string, null), a
    ["%Y-%m-%d"] string, kept as the ordinal of its calendar day, or anything
    that [strptime] rejects. *)
Inductive day_value : Type :=
| Falsy
| DateStr (ordinal : Z)
| Unparsable.

(** The dictionary that [load_state] returns and [save_state] writes. *)
Record State : Type := { last_trade_day : gmap string day_value }.

(** [state["last_trade_day"][sym] = v] *)
Definition set_last_trade_day (state : State) (sym : string) (v : day_value) : State :=
  {| last_trade_day := <[sym := v]> (last_trade_day state) |}.

Inductive OrderSide : Type := BUY | SELL.
Inductive TimeInForce : Type := DAY.

(** [MarketOrderRequest] *)
Record MarketOrderRequest : Type := {
  symbol : string;
  qty : Z;
  side : OrderSide;
  time_in_force : TimeInForce;
}.

(** One element of the ranking:
    [(symbol, trend, short_avg, long_avg, latest)]. *)
Definition Ranked : Type := string * Q * Q * Q * Q.

Definition ranked_sym (x : Ranked) : string := let '(sym, _, _, _, _) := x in sym.
Definition ranked_trend (x : Ranked) : Q := let '(_, trend, _, _, _) := x in trend.
Definition ranked_short_avg (x : Ranked) : Q := let '(_, _, short_avg, _, _) := x in short_avg.
Definition ranked_long_avg (x : Ranked) : Q := let '(_, _, _, long_avg, _) := x in long_avg.
Definition ranked_latest (x : Ranked) : Q := let '(_, _, _, _, latest) := x in latest.

(** The calls that [bot.py] makes on [TradingClient] and
    [StockHistoricalDataClient].  Each call answers or raises, and leaves the
    world in a new state.
    - [get_account]: the account's [cash], as the float read from it;
    - [get_stock_bars symbol feed]: the closes of [bars.data.get(symbol, [])],
      oldest first;
    - [get_open_position symbol]: the position's [qty], as the float read
      from it;
    - [get_clock]: the clock's [is_open]. *)
Class Alpaca (W : Type) : Type := {
  get_account : W -> (upstream_exn + Q) * W;
  get_stock_bars : string -> string -> W -> (upstream_exn + list Q) * W;
  get_open_position : string -> W -> (upstream_exn + Q) * W;
  submit_order : MarketOrderRequest -> W -> (upstream_exn + unit) * W;
  get_clock : W -> (upstream_exn + bool) * W;
}.

(** [needle in hay] on strings. *)
Definition str_in (needle hay : string) : bool :=
  match String.index 0 needle hay with
  | Some _ => true
  | None => false
  end.

(** [l[start:]] *)
Definition slice_from {A : Type} (start : Z) (l : list A) : list A :=
  let len := Z.of_nat (length l) in
  let start := (if start <? 0 then Z.max (start + len) 0 else Z.min start len)%Z in
  drop (Z.to_nat start) l.

(** [l[-1]] *)
Definition index_last {A : Type} (l : list A) : exn + A :=
  match last l with
  | Some x => inr x
  | None => inl IndexError
  end.

(** [int(x)] of a float: truncation towards zero. *)
Definition int_of_float (x : Q) : Z := Z.quot (Qnum x) (Zpos (Qden x)).

(** [sma]: [sum(prices) / len(prices)], the sum taken from the left and
    started at [0] as [sum] does; the division raises for the length [0].
    The sum and the quotient are the exact ones, by the convention on floats
    of this file; the program's float differs from this value by the
    rounding of each addition and of the division. *)
Definition sma (prices : list Q) : exn + Q :=
  match prices with
  | [] => inl ZeroDivisionError
  | _ => inr (fold_left Qplus prices 0 / inject_Z (Z.of_nat (length prices)))%Q
  end.

(** [_parse_day], on the result of [state["last_trade_day"].get(sym)]. *)
Definition _parse_day (s : option day_value) : exn + option Z :=
  match s with
  | None | Some Falsy => inr None
  | Some (DateStr d) => inr (Some d)
  | Some Unparsable => inl ValueError
  end.

(** [_format_day] of a moment whose UTC calendar day is [dt]. *)
Definition _format_day (dt : Z) : day_value := DateStr dt.

(** [days_since] *)
Definition days_since (last_day : option day_value) (today : Z) : exn + Z :=
  match _parse_day last_day with
  | inl e => inl e
  | inr None => inr (10 ^ 9)%Z
  | inr (Some last) => inr (today - last)%Z
  end.

(** [list.sort(key=key)] places each element, from left to right, behind the
    elements already placed that are not greater than it. *)
Fixpoint insert_asc {A : Type} (key : A -> Q) (x : A) (l : list A) : list A :=
  match l with
  | [] => [x]
  | y :: l' =>
      if Qlt_le_dec (key x) (key y) then x :: y :: l' else y :: insert_asc key x l'
  end.

Definition sort_asc {A : Type} (key : A -> Q) (l : list A) : list A :=
  fold_left (fun acc x => insert_asc key x acc) l [].

(** [l.sort(key=key, reverse=True)]: the list is reversed, sorted in
    ascending order keeping equal keys in their order, and reversed again. *)
Definition sort_reverse {A : Type} (key : A -> Q) (l : list A) : list A :=
  rev (sort_asc key (rev l)).

Section WithAlpaca.
Context {W : Type} `{Alpaca W}.

(** What a cycle acts on: the world behind the Alpaca client, the orders
    handed to [submit_order] so far and the states written by
    [save_state] so far, both oldest first. *)
Record machine : Type := {
  world : W;
  orders : list MarketOrderRequest;
  saved : list State;
}.

(** A computation of [bot.py]: it returns or raises, and changes the
    machine. *)
Definition M (A : Type) : Type := machine -> (exn + A) * machine.

Definition ret {A : Type} (a : A) : M A := fun m => (inr a, m).

Definition raise {A : Type} (e : exn) : M A := fun m => (inl e, m).

Definition bind {A B : Type} (c : M A) (k : A -> M B) : M B :=
  fun m =>
    match c m with
    | (inr a, m') => k a m'
    | (inl e, m') => (inl e, m')
    end.

(** [try: c except ...: handler] *)
Definition try_except {A : Type} (c : M A) (handler : exn -> M A) : M A :=
  fun m =>
    match c m with
    | (inr a, m') => (inr a, m')
    | (inl e, m') => handler e m'
    end.

(** A pure step that may raise. *)
Definition lift {A : Type} (r : exn + A) : M A := fun m => (r, m).

(** A call into the Alpaca client. *)
Definition call {A : Type} (f : W -> (upstream_exn + A) * W) : M A :=
  fun m =>
    let '(r, w) := f (world m) in
    (match r with inl e => inl (Upstream e) | inr a => inr a end,
     {| world := w; orders := orders m; saved := saved m |}).

(** [for x in l: body], with the variables the loop assigns carried in
    [s]. *)
Fixpoint for_in {A S : Type} (body : A -> S -> M S) (l : list A) (s : S) : M S :=
  match l with
  | [] => ret s
  | x :: l' => bind (body x s) (for_in body l')
  end.
End WithAlpaca.
Arguments machine : clear implicits.
Arguments M : clear implicits.

Notation "x <- c1 ;; c2" := (bind c1 (fun x => c2))
  (at level 100, c1 at next level, right associativity).
Notation "c1 ;; c2" := (bind c1 (fun _ => c2))
  (at level 100, right associativity).

Section Cycle.
Context {W : Type} `{Alpaca W}.

(** [save_state] *)
Definition save_state (state : State) : M W unit :=
  fun m => (inr tt, {| world := world m; orders := orders m; saved := saved m ++ [state] |}).

(** [trading_client.submit_order(order_data=order)] *)
Definition submit (order : MarketOrderRequest) : M W unit :=
  fun m =>
    let '(r, w) := submit_order order (world m) in
    (match r with inl e => inl (Upstream e) | inr a => inr a end,
     {| world := w; orders := orders m ++ [order]; saved := saved m |}).

(** [get_last_n_closes] *)
Definition get_last_n_closes (symbol : string) (n : Z) (feed : string) : M W (list Q) :=
  closes <- try_except (call (get_stock_bars symbol feed))
    (fun e =>
       match e with
       | Upstream (APIError msg) =>
           if str_in "subscription does not permit" msg && str_in "SIP" msg
           then raise (RuntimeError SipNotPermitted)
           else if str_in "401" msg || str_in "Unauthorized" msg
                   || str_in "Authorization Required" msg
           then raise (RuntimeError Unauthorized401)
           else raise e
       | _ => raise e
       end) ;;
  if (Z.of_nat (length closes) <? n)%Z
  then raise (RuntimeError (NotEnoughBars symbol n (Z.of_nat (length closes))))
  else ret (slice_from (- n) closes).

(** [current_position_qty] *)
Definition current_position_qty (symbol : string) : M W Z :=
  try_except
    (pos_qty <- call (get_open_position symbol) ;;
     ret (int_of_float pos_qty))
    (fun _ => ret 0%Z).

(** [market_buy] *)
Definition market_buy (symbol : string) (qty : Z) : M W unit :=
  let order := {| symbol := symbol; qty := qty; side := BUY; time_in_force := DAY |} in
  submit order.

(** [market_sell] *)
Definition market_sell (symbol : string) (qty : Z) : M W unit :=
  let order := {| symbol := symbol; qty := qty; side := SELL; time_in_force := DAY |} in
  submit order.

(** The body of the loop of [rank_symbols]. *)
Definition rank_body (short_window long_window : Z) (feed : string)
    (sym : string) (ranked : list Ranked) : M W (list Ranked) :=
  closes_long <- get_last_n_closes sym long_window feed ;;
  let closes_short := slice_from (- short_window) closes_long in
  short_avg <- lift (sma closes_short) ;;
  long_avg <- lift (sma closes_long) ;;
  let trend := (short_avg - long_avg)%Q in
  latest <- lift (index_last closes_long) ;;
  ret (ranked ++ [(sym, trend, short_avg, long_avg, latest)]).

(** [rank_symbols] *)
Definition rank_symbols (symbols : list string) (short_window long_window : Z)
    (feed : string) : M W (list Ranked) :=
  ranked <- for_in (rank_body short_window long_window feed) symbols [] ;;
  ret (sort_reverse ranked_trend ranked).

(** The part of [run_once] that follows the market-clock check is written
    over the settings and the moment of the run. *)
Variable settings : Settings.
Variable today : Z.

(** The body of the loop under [# SELL RULE]; the loop assigns [cash] and
    [state]. *)
Definition sell_body (x : Ranked) (vars : Q * State) : M W (Q * State) :=
  let '(sym, _, short_avg, long_avg, latest) := x in
  let '(cash, state) := vars in
  qty <- current_position_qty sym ;;
  if (qty <=? 0)%Z then ret (cash, state)
  else if Qlt_le_dec short_avg long_avg then
    market_sell sym qty ;;
    let proceeds := (inject_Z qty * latest)%Q in
    let cash := (cash + proceeds)%Q in
    let state := set_last_trade_day state sym (_format_day today) in
    ret (cash, state)
  else ret (cash, state).

(** The body of the loop under [# BUY RULE]. *)
Definition buy_body (x : Ranked) (vars : Q * State) : M W (Q * State) :=
  let '(sym, trend, _, _, price) := x in
  let '(cash, state) := vars in
  if Qle_bool trend 0 then ret (cash, state)
  else
    waited <- lift (days_since (last_trade_day state !! sym) today) ;;
    qty <- current_position_qty sym ;;
    let cost := (inject_Z (shares_per_trade settings) * price)%Q in
    let can_afford := Qle_bool cost cash in
    let under_max := (qty + shares_per_trade settings <=? max_shares settings)%Z in
    if (wait_days settings <=? waited)%Z && under_max && can_afford then
      market_buy sym (shares_per_trade settings) ;;
      let cash := (cash - cost)%Q in
      let state := set_last_trade_day state sym (_format_day today) in
      ret (cash, state)
    else ret (cash, state).

(** [run_once] from the market-clock check on: the early return when the
    market is closed, the two loops and the final [save_state]. *)
Definition trade (ranked : list Ranked) (cash : Q) (state : State) : M W unit :=
  is_open <- call get_clock ;;
  if negb is_open then save_state state
  else
    vars <- for_in sell_body ranked (cash, state) ;;
    vars <- for_in buy_body ranked vars ;;
    save_state (snd vars).

(** [run_once], with [state] the result of [load_state()]; [settings] is
    the result of [load_settings()] and [today] the UTC day of
    [datetime.now(timezone.utc)]. *)
Definition run_once (state : State) : M W unit :=
  cash <- call get_account ;;
  ranked <- rank_symbols (watchlist settings) (short_window settings)
              (long_window settings) (data_feed settings) ;;
  trade ranked cash state.
End Cycle.

End bot.

(** ** The orderings that the specification speaks of *)

Module spec.
(** Insertion in front: [x] is placed before the first element whose key is
    not greater than its own. *)
Fixpoint insert_desc {A : Type} (key : A -> Q) (x : A) (l : list A) : list A :=
  match l with
  | [] => [x]
  | y :: l' =>
      if Qlt_le_dec (key x) (key y) then y :: insert_desc key x l' else x :: y :: l'
  end.

(** Sorting by key in descending order, equal keys keeping the order they
    have in the list: every element is put in front of the sorted rest. *)
Fixpoint stable_sort_desc {A : Type} (key : A -> Q) (l : list A) : list A :=
  match l with
  | [] => []
  | x :: l' => insert_desc key x (stable_sort_desc key l')
  end.

(** Insertion behind: [x] is placed before the first element whose key is
    smaller than its own, behind the elements of equal key. *)
Fixpoint insert_behind {A : Type} (key : A -> Q) (x : A) (l : list A) : list A :=
  match l with
  | [] => [x]
  | y :: l' =>
      if Qlt_le_dec (key y) (key x) then x :: y :: l' else y :: insert_behind key x l'
  end.

(** A list whose keys never increase. *)
Definition descending {A : Type} (key : A -> Q) (l : list A) : Prop :=
  StronglySorted (fun a b => (key b <= key a)%Q) l.

(** A list whose keys never decrease. *)
Definition ascending {A : Type} (key : A -> Q) (l : list A) : Prop :=
  StronglySorted (fun a b => (key a <= key b)%Q) l.
End spec.

#[global] Instance Qlt_decision (x y : Q) : Decision (x < y)%Q.
Proof.
  refine (match Qlt_le_dec x y with left h => left h | right h => right _ end).
  now apply Qle_not_lt.
Defined.

#[global] Instance Qle_decision (x y : Q) : Decision (x <= y)%Q.
Proof.
  refine (match Qlt_le_dec y x with left h => right _ | right h => left h end).
  now apply Qlt_not_le.
Defined.
#[global] Instance Qeq_decision (x y : Q) : Decision (x == y)%Q := Qeq_dec x y.

(** ** A paper account, to run the cycle on *)

Module paper.
(** A world that never changes: the account's cash, the daily closes and
    the open position of the symbols (Alpaca answers that the position
    does not exist for a symbol that has none), whether the market is open
    and whether the broker accepts orders. *)
Record account : Type := {
  cash : Q;
  closes : list (string * list Q);
  positions : list (string * Q);
  is_open : bool;
  accepts_orders : bool;
}.

Fixpoint assoc {A : Type} (symbol : string) (l : list (string * A)) : option A :=
  match l with
  | [] => None
  | (s, a) :: l' => if String.eqb s symbol then Some a else assoc symbol l'
  end.

#[global] Instance alpaca : bot.Alpaca account := {|
  bot.get_account w := (inr (cash w), w);
  bot.get_stock_bars symbol feed w :=
    (inr (match assoc symbol (closes w) with Some l => l | None => [] end), w);
  bot.get_open_position symbol w :=
    match assoc symbol (positions w) with
    | Some q => (inr q, w)
    | None => (inl (bot.APIError "position does not exist"), w)
    end;
  bot.submit_order order w :=
    if accepts_orders w then (inr tt, w)
    else (inl (bot.APIError "order rejected"), w);
  bot.get_clock w := (inr (is_open w), w);
|}.

(** The machine at the start of a cycle. *)
Definition start (w : account) : bot.machine account :=
  {| bot.world := w; bot.orders := []; bot.saved := [] |}.

Definition settings (watchlist : list string) : bot.Settings := {|
  bot.api_key := "key";
  bot.api_secret := "secret";
  bot.paper := true;
  bot.data_feed := "iex";
  bot.watchlist := watchlist;
  bot.cash_start := 10000;
  bot.max_shares := 300;
  bot.shares_per_trade := 50;
  bot.wait_days := 5;
  bot.short_window := 2;
  bot.long_window := 3;
|}.

(** PFE rises and is not held; T falls and 10 shares of it are held. *)
Definition rising_and_falling (is_open : bool) : account := {|
  cash := 10000;
  closes := [("PFE", [10; 11; 12]%Q); ("T", [30; 20; 16]%Q)];
  positions := [("T", 10%Q)];
  is_open := is_open;
  accepts_orders := true;
|}.

(** As above, but only one daily bar exists for PFE. *)
Definition short_history : account := {|
  cash := 10000;
  closes := [("PFE", [12]%Q); ("T", [30; 20; 16]%Q)];
  positions := [("T", 10%Q)];
  is_open := true;
  accepts_orders := true;
|}.

(** As [rising_and_falling], with a broker that rejects every order. *)
Definition rejecting : account := {|
  cash := 10000;
  closes := [("PFE", [10; 11; 12]%Q); ("T", [30; 20; 16]%Q)];
  positions := [("T", 10%Q)];
  is_open := true;
  accepts_orders := false;
|}.

Definition empty_state : bot.State := {| bot.last_trade_day := ∅ |}.
End paper.

(** ** Notions used in the statements *)

(** A computation that submits no order and saves no state. *)
Definition quiet {W A : Type} (c : bot.M W A) : Prop :=
  forall m, bot.orders (snd (c m)) = bot.orders m /\ bot.saved (snd (c m)) = bot.saved m.

(** A computation that saves no state and submits only orders of one side,
    for symbols taken in order from [syms]. *)
Definition emits {W A : Type} (sd : bot.OrderSide) (syms : list string)
    (c : bot.M W A) : Prop :=
  forall m, exists os,
    bot.orders (snd (c m)) = bot.orders m ++ os /\
    bot.saved (snd (c m)) = bot.saved m /\
    Forall (fun o => bot.side o = sd) os /\
    sublist (map bot.symbol os) syms.

(** The exception that leaves [get_last_n_closes] when [get_stock_bars]
    raised [e]. *)
Definition reraised (e : bot.upstream_exn) : bot.exn :=
  match e with
  | bot.APIError msg =>
      if bot.str_in "subscription does not permit" msg && bot.str_in "SIP" msg
      then bot.RuntimeError bot.SipNotPermitted
      else if bot.str_in "401" msg || bot.str_in "Unauthorized" msg
              || bot.str_in "Authorization Required" msg
      then bot.RuntimeError bot.Unauthorized401
      else bot.Upstream e
  | bot.OtherException _ => bot.Upstream e
  end.

(** The machine [m] after a call that left the world as [w]. *)
Definition with_world {W : Type} (m : bot.machine W) (w : W) : bot.machine W :=
  {| bot.world := w; bot.orders := bot.orders m; bot.saved := bot.saved m |}.

(** ** A data service in an outage *)

Module outage.
(** Every call is answered with a 401. *)
#[global] Instance alpaca : bot.Alpaca unit := {|
  bot.get_account w := (inl (bot.APIError "HTTP 401 Unauthorized"), w);
  bot.get_stock_bars symbol feed w := (inl (bot.APIError "HTTP 401 Unauthorized"), w);
  bot.get_open_position symbol w := (inl (bot.APIError "HTTP 401 Unauthorized"), w);
  bot.submit_order order w := (inl (bot.APIError "HTTP 401 Unauthorized"), w);
  bot.get_clock w := (inl (bot.APIError "HTTP 401 Unauthorized"), w);
|}.

(** The machine at the start of a cycle. *)
Definition start : bot.machine unit :=
  {| bot.world := tt; bot.orders := []; bot.saved := [] |}.
End outage.

(** ** More notions used in the statements *)

(** The scoring of one symbol from its closes: what [rank_symbols] puts in a
    row. *)
Definition scored (short_window : Z) (closes_long : list Q) (x : bot.Ranked) : Prop :=
  bot.sma (bot.slice_from (- short_window) closes_long) = inr (bot.ranked_short_avg x) /\
  bot.sma closes_long = inr (bot.ranked_long_avg x) /\
  bot.ranked_trend x = (bot.ranked_short_avg x - bot.ranked_long_avg x)%Q /\
  last closes_long = Some (bot.ranked_latest x).

(** The rows that the loop of [rank_symbols] makes for [symbols], from the
    world [w] on: for each symbol in turn, [get_stock_bars] answers with a
    history of at least [long_window] closes and leaves the world to the
    next symbol, and the row of the symbol is scored from the last
    [long_window] closes of that history. *)
Fixpoint fetched_rows {W : Type} `{bot.Alpaca W} (short_window long_window : Z)
    (feed : string) (symbols : list string) (w : W) (rows : list bot.Ranked) (w' : W)
    : Prop :=
  match symbols, rows with
  | [], [] => w' = w
  | sym :: symbols', x :: rows' =>
      exists history w1,
        bot.get_stock_bars sym feed w = (inr history, w1) /\
        (long_window <= Z.of_nat (length history))%Z /\
        bot.ranked_sym x = sym /\
        scored short_window (bot.slice_from (- long_window) history) x /\
        fetched_rows short_window long_window feed symbols' w1 rows' w'
  | _, _ => False
  end.

(** A SELL order that the sell rule allows for a row: for the row's symbol,
    of a positive quantity, the row's short average below its long one. *)
Definition sell_order_of (x : bot.Ranked) (o : bot.MarketOrderRequest) : Prop :=
  bot.symbol o = bot.ranked_sym x /\ bot.side o = bot.SELL /\ (0 < bot.qty o)%Z /\
  (bot.ranked_short_avg x < bot.ranked_long_avg x)%Q.

(** A BUY order that the buy rule allows for a row: for the row's symbol, of
    [shares_per_trade] shares, the row's trend positive. *)
Definition buy_order_of (settings : bot.Settings) (x : bot.Ranked)
    (o : bot.MarketOrderRequest) : Prop :=
  bot.symbol o = bot.ranked_sym x /\ bot.side o = bot.BUY /\
  bot.qty o = bot.shares_per_trade settings /\ (0 < bot.ranked_trend x)%Q.

(** The orders of a cycle so far: after the orders [before], SELL orders for
    rows of the ranking, then BUY orders for rows of the ranking; when
    [wait_days] is at least one, no symbol is bought twice and no symbol is
    bought that was sold. *)
Definition order_log (settings : bot.Settings) (ranked : list bot.Ranked)
    (before sells buys now : list bot.MarketOrderRequest) : Prop :=
  now = before ++ sells ++ buys /\
  Forall (fun o => exists x, x ∈ ranked /\ sell_order_of x o) sells /\
  Forall (fun o => exists x, x ∈ ranked /\ buy_order_of settings x o) buys /\
  ((1 <= bot.wait_days settings)%Z ->
   NoDup (map bot.symbol buys) /\
   Forall (fun o => bot.symbol o ∉ map bot.symbol sells) buys).

(** The last trade days of [state] are those of [state0], but today for the
    symbols of the orders [os]. *)
Definition cooldown_marks (today : Z) (state0 state : bot.State)
    (os : list bot.MarketOrderRequest) : Prop :=
  forall sym,
    (sym ∈ map bot.symbol os ->
     bot.last_trade_day state !! sym = Some (bot.DateStr today)) /\
    (sym ∉ map bot.symbol os ->
     bot.last_trade_day state !! sym = bot.last_trade_day state0 !! sym).

(** [needle] occurs in [hay]. *)
Definition occurs_in (needle hay : string) : Prop :=
  exists pre post, hay = (pre ++ needle ++ post)%string.

(** * Proofs *)

(** Case analysis on the comparisons of a goal. *)
Ltac q_cases :=
  match goal with
  | |- context [Qlt_le_dec ?a ?b] => destruct (Qlt_le_dec a b); simpl
  end.

(** ** The code on small inputs *)

Example ranking_with_ties :
  bst.get_ranked_descending
    (bst.insert_all bst.init [(1, "a"); (3, "b"); (1, "c"); (2, "d"); (3, "e")]%Q) =
  ["b"; "e"; "d"; "a"; "c"].
Proof. reflexivity. Qed.

Example count_below_two :
  bst.count_less_than
    (bst.insert_all bst.init [(1, "a"); (3, "b"); (1, "c"); (2, "d"); (3, "e")]%Q) 2 = 2%Z.
Proof. reflexivity. Qed.

Example max_of_ranking :
  bst.get_max
    (bst.insert_all bst.init [(1, "a"); (3, "b"); (1, "c"); (2, "d"); (3, "e")]%Q) =
  Some (3%Q, "b").
Proof. reflexivity. Qed.

Example max_of_new_tree : bst.get_max (bst.init (V := string)) = None.
Proof. reflexivity. Qed.

Example last_two_closes : bot.slice_from (- 2) [1; 2; 3; 4; 5]%Q = [4; 5]%Q.
Proof. reflexivity. Qed.

Example last_zero_closes : bot.slice_from (- 0) [1; 2; 3]%Q = [1; 2; 3]%Q.
Proof. reflexivity. Qed.

Example average_of_five : bot.sma [1; 2; 3; 4; 5]%Q = inr (15 # 5)%Q.
Proof. reflexivity. Qed.

Example average_of_none : bot.sma [] = inl bot.ZeroDivisionError.
Proof. reflexivity. Qed.

Example sort_keeps_ties :
  bot.sort_reverse fst [(1, "a"); (3, "b"); (1, "c"); (2, "d"); (3, "e")]%Q =
  [(3, "b"); (3, "e"); (2, "d"); (1, "a"); (1, "c")]%Q.
Proof. reflexivity. Qed.

Example never_traded : bot.days_since None 100 = inr (10 ^ 9)%Z.
Proof. reflexivity. Qed.

Example traded_three_days_ago : bot.days_since (Some (bot.DateStr 97)) 100 = inr 3%Z.
Proof. reflexivity. Qed.

Example ranking_of_paper_account :
  fst (bot.rank_symbols ["T"; "PFE"] 2 3 "iex" (paper.start (paper.rising_and_falling true))) =
  inr [("PFE", 3 # 6, 23 # 2, 33 # 3, 12); ("T", -24 # 6, 36 # 2, 66 # 3, 16)]%Q.
Proof. reflexivity. Qed.

Example cycle_of_paper_account :
  bot.orders (snd (bot.run_once (paper.settings ["T"; "PFE"]) 100 paper.empty_state
                     (paper.start (paper.rising_and_falling true)))) =
  [{| bot.symbol := "T"; bot.qty := 10; bot.side := bot.SELL; bot.time_in_force := bot.DAY |};
   {| bot.symbol := "PFE"; bot.qty := 50; bot.side := bot.BUY; bot.time_in_force := bot.DAY |}].
Proof. reflexivity. Qed.

(** ** Properties of the binary search tree *)

Section BstFacts.
Context {V : Type}.
Implicit Types (node l r : bst.BSTNode V) (kv : Q * V) (kvs : list (Q * V)).

Lemma reverse_inorder_nodes node (result : list V) :
  bst._reverse_inorder node result = result ++ map snd (bst.nodes_desc node).
Proof.
  revert result.
  induction node as [| k v l IHl r IHr]; intros result; simpl.
  - now rewrite app_nil_r.
  - rewrite IHl, IHr, map_app. simpl.
    now rewrite <- !app_assoc.
Qed.

Lemma get_ranked_descending_nodes (t : bst.BST V) :
  bst.get_ranked_descending t = map snd (bst.nodes_desc (bst._root t)).
Proof. unfold bst.get_ranked_descending. now rewrite reverse_inorder_nodes. Qed.

Lemma nodes_insert_perm node k v :
  bst.nodes_desc (bst._insert_rec node k v) ≡ₚ (k, v) :: bst.nodes_desc node.
Proof.
  induction node as [| k0 v0 l IHl r IHr]; simpl; [reflexivity |].
  destruct (Qlt_le_dec k0 k); simpl.
  - rewrite IHr. reflexivity.
  - rewrite IHl.
    rewrite (Permutation_middle (bst.nodes_desc r) _ (k, v)).
    apply Permutation_app_head, perm_swap.
Qed.

Lemma ordered_insert node k v :
  bst.ordered node -> bst.ordered (bst._insert_rec node k v).
Proof.
  induction node as [| k0 v0 l IHl r IHr]; simpl.
  - intros _. repeat split; constructor.
  - intros (Hl & Hr & Ol & Or).
    destruct (Qlt_le_dec k0 k) as [Hlt | Hle]; simpl; repeat split; auto.
    + rewrite nodes_insert_perm. now constructor.
    + rewrite nodes_insert_perm. now constructor.
Qed.

Lemma ordered_descending node :
  bst.ordered node -> spec.descending fst (bst.nodes_desc node).
Proof.
  unfold spec.descending.
  induction node as [| k0 v0 l IHl r IHr]; simpl.
  - intros _. constructor.
  - intros (Hl & Hr & Ol & Or).
    apply StronglySorted_app_2; auto.
    + intros x y Hx Hy. rewrite Forall_forall in Hl, Hr.
      apply elem_of_cons in Hy as [-> | Hy]; simpl.
      * apply Qlt_le_weak. auto.
      * apply Qle_trans with k0; [auto | apply Qlt_le_weak; auto].
    + constructor; auto.
Qed.

Lemma descending_keys kvs :
  spec.descending fst kvs ->
  StronglySorted (fun k k' => (k' <= k)%Q) (map fst kvs).
Proof.
  induction 1 as [| a l Hs IH Hall]; simpl; constructor; auto.
  apply List.Forall_map. exact Hall.
Qed.

Lemma insert_all_snoc (t : bst.BST V) kvs kv :
  bst.insert_all t (kvs ++ [kv]) = bst.insert (bst.insert_all t kvs) (fst kv) (snd kv).
Proof. unfold bst.insert_all. now rewrite fold_left_app. Qed.

Lemma insert_all_ordered kvs :
  bst.ordered (bst._root (bst.insert_all bst.init kvs)).
Proof.
  induction kvs as [| kv kvs IH] using rev_ind; [exact I |].
  rewrite insert_all_snoc. simpl. now apply ordered_insert.
Qed.

Lemma insert_all_perm kvs :
  bst.nodes_desc (bst._root (bst.insert_all bst.init kvs)) ≡ₚ kvs.
Proof.
  induction kvs as [| kv kvs IH] using rev_ind; [reflexivity |].
  rewrite insert_all_snoc. simpl. rewrite nodes_insert_perm, IH.
  destruct kv. simpl. apply Permutation_cons_append.
Qed.

Lemma count_less_nodes node (threshold : Q) :
  bst._count_less_rec node threshold =
  Z.of_nat (length (filter (fun kv => (fst kv < threshold)%Q) (bst.nodes_desc node))).
Proof.
  induction node as [| k0 v0 l IHl r IHr]; simpl; [reflexivity |].
  rewrite IHl, IHr, filter_app, filter_cons, length_app. simpl.
  unfold decide, Qlt_decision.
  destruct (Qlt_le_dec k0 threshold); simpl; lia.
Qed.
End BstFacts.

(** C4. After any sequence of [insert(key, value)] calls on a new tree,
    [get_ranked_descending] returns as many values as there were insertions;
    they are the values of the inserted pairs, each listed with the key of its
    node, and along the list these keys never increase. *)
Theorem get_ranked_descending_sorted {V : Type} (kvs : list (Q * V)) :
  let t := bst.insert_all bst.init kvs in
  length (bst.get_ranked_descending t) = length kvs /\
  bst.get_ranked_descending t = map snd (bst.nodes_desc (bst._root t)) /\
  bst.nodes_desc (bst._root t) ≡ₚ kvs /\
  StronglySorted (fun k k' => (k' <= k)%Q) (map fst (bst.nodes_desc (bst._root t))).
Proof.
  intros t. subst t.
  pose proof (insert_all_perm kvs) as Hperm.
  pose proof (ordered_descending _ (insert_all_ordered kvs)) as Hsorted.
  repeat split.
  - rewrite get_ranked_descending_nodes, length_map. now rewrite Hperm.
  - apply get_ranked_descending_nodes.
  - exact Hperm.
  - now apply descending_keys.
Qed.

(** C5. After any sequence of insertions and for every threshold,
    [count_less_than] is the number of entries of the list of
    [get_ranked_descending] whose key is strictly less than the threshold. *)
Theorem count_less_than_ranked {V : Type} (kvs : list (Q * V)) (threshold : Q) :
  let t := bst.insert_all bst.init kvs in
  let entries := bst.nodes_desc (bst._root t) in
  map snd entries = bst.get_ranked_descending t /\
  bst.count_less_than t threshold =
    Z.of_nat (length (filter (fun kv => (fst kv < threshold)%Q) entries)) /\
  bst.count_less_than t threshold =
    Z.of_nat (length (filter (fun kv => (fst kv < threshold)%Q) kvs)).
Proof.
  intros t entries. subst t entries.
  split; [symmetry; apply get_ranked_descending_nodes |].
  unfold bst.count_less_than. rewrite count_less_nodes.
  split; [reflexivity |].
  now rewrite (insert_all_perm kvs).
Qed.

(** ** Stable sorting in descending order *)

Section SortFacts.
Context {A : Type} (key : A -> Q).
Implicit Types (x y : A) (l : list A).

Lemma insert_desc_perm x l : spec.insert_desc key x l ≡ₚ x :: l.
Proof.
  induction l as [| y l IH]; simpl; [reflexivity |].
  destruct (Qlt_le_dec (key x) (key y)); [| reflexivity].
  rewrite IH. apply perm_swap.
Qed.

Lemma stable_sort_desc_perm l : spec.stable_sort_desc key l ≡ₚ l.
Proof.
  induction l as [| x l IH]; simpl; [reflexivity |].
  now rewrite insert_desc_perm, IH.
Qed.

Lemma insert_desc_descending x l :
  spec.descending key l -> spec.descending key (spec.insert_desc key x l).
Proof.
  unfold spec.descending.
  induction 1 as [| y l Hs IH Hall]; simpl.
  - repeat constructor.
  - destruct (Qlt_le_dec (key x) (key y)) as [Hlt | Hle].
    + constructor; [exact IH |].
      rewrite insert_desc_perm. constructor; [now apply Qlt_le_weak | exact Hall].
    + constructor; [now constructor |].
      constructor; [exact Hle |].
      eapply Forall_impl; [exact Hall |].
      intros z Hz. simpl in Hz. now apply Qle_trans with (key y).
Qed.

Lemma stable_sort_desc_descending l :
  spec.descending key (spec.stable_sort_desc key l).
Proof.
  induction l as [| x l IH]; simpl; [constructor |].
  now apply insert_desc_descending.
Qed.

(** Stability: the elements of any one key are in the order of the list. *)
Lemma insert_desc_filter (k : Q) x l :
  filter (fun y => (key y == k)%Q) (spec.insert_desc key x l) =
  filter (fun y => (key y == k)%Q) (x :: l).
Proof.
  induction l as [| y l IH]; simpl; [reflexivity |].
  destruct (Qlt_le_dec (key x) (key y)) as [Hlt | Hle]; [| reflexivity].
  rewrite filter_cons, IH, !filter_cons.
  destruct (decide (key y == k)%Q) as [Hy | Hy];
    destruct (decide (key x == k)%Q) as [Hx | Hx]; try reflexivity.
  exfalso. rewrite Hx, Hy in Hlt. now apply Qlt_irrefl in Hlt.
Qed.

Lemma stable_sort_desc_stable (k : Q) l :
  filter (fun y => (key y == k)%Q) (spec.stable_sort_desc key l) =
  filter (fun y => (key y == k)%Q) l.
Proof.
  induction l as [| x l IH]; simpl; [reflexivity |].
  now rewrite insert_desc_filter, !filter_cons, IH.
Qed.

(** Inserting in front and inserting behind commute. *)
Lemma insert_desc_behind_comm x y l :
  spec.insert_desc key x (spec.insert_behind key y l) =
  spec.insert_behind key y (spec.insert_desc key x l).
Proof.
  induction l as [| z l IH]; simpl.
  - destruct (Qlt_le_dec (key x) (key y)); reflexivity.
  - destruct (Qlt_le_dec (key z) (key y)) as [Hzy | Hyz];
      destruct (Qlt_le_dec (key x) (key z)) as [Hxz | Hzx]; simpl;
      repeat q_cases; try reflexivity; try (exfalso; lra).
    now rewrite IH.
Qed.

Lemma stable_sort_desc_snoc l y :
  spec.stable_sort_desc key (l ++ [y]) =
  spec.insert_behind key y (spec.stable_sort_desc key l).
Proof.
  induction l as [| x l IH]; simpl; [reflexivity |].
  now rewrite IH, insert_desc_behind_comm.
Qed.

Lemma insert_behind_app_smaller y l z l' :
  (key z < key y)%Q ->
  spec.insert_behind key y (l ++ z :: l') = spec.insert_behind key y l ++ z :: l'.
Proof.
  intros Hzy. induction l as [| x l IH]; simpl.
  - destruct (Qlt_le_dec (key z) (key y)); [reflexivity |].
    exfalso; lra.
  - destruct (Qlt_le_dec (key x) (key y)); [reflexivity |].
    now rewrite IH.
Qed.

Lemma insert_behind_app_not_smaller y l l' :
  Forall (fun x => (key y <= key x)%Q) l ->
  spec.insert_behind key y (l ++ l') = l ++ spec.insert_behind key y l'.
Proof.
  induction 1 as [| x l Hx Hall IH]; simpl; [reflexivity |].
  destruct (Qlt_le_dec (key x) (key y)); [exfalso; lra |].
  now rewrite IH.
Qed.

(** The model of [list.sort]. *)
Lemma insert_asc_perm x l : bot.insert_asc key x l ≡ₚ x :: l.
Proof.
  induction l as [| y l IH]; simpl; [reflexivity |].
  destruct (Qlt_le_dec (key x) (key y)); [reflexivity |].
  rewrite IH. apply perm_swap.
Qed.

Lemma insert_asc_ascending x l :
  spec.ascending key l -> spec.ascending key (bot.insert_asc key x l).
Proof.
  unfold spec.ascending.
  induction 1 as [| y l Hs IH Hall]; simpl.
  - repeat constructor.
  - destruct (Qlt_le_dec (key x) (key y)) as [Hlt | Hle].
    + constructor; [now constructor |].
      constructor; [now apply Qlt_le_weak |].
      eapply Forall_impl; [exact Hall |].
      intros z Hz. simpl in Hz.
      apply Qle_trans with (key y); [now apply Qlt_le_weak | exact Hz].
    + constructor; [exact IH |].
      rewrite insert_asc_perm. now constructor.
Qed.

Lemma sort_asc_snoc l x :
  bot.sort_asc key (l ++ [x]) = bot.insert_asc key x (bot.sort_asc key l).
Proof. unfold bot.sort_asc. now rewrite fold_left_app. Qed.

Lemma sort_asc_ascending l : spec.ascending key (bot.sort_asc key l).
Proof.
  induction l as [| x l IH] using rev_ind; [constructor |].
  rewrite sort_asc_snoc. now apply insert_asc_ascending.
Qed.

Lemma insert_desc_app_greater x l l' :
  Forall (fun y => (key x < key y)%Q) l ->
  spec.insert_desc key x (l ++ l') = l ++ spec.insert_desc key x l'.
Proof.
  induction 1 as [| y l Hy Hall IH]; simpl; [reflexivity |].
  destruct (Qlt_le_dec (key x) (key y)); [now rewrite IH |].
  exfalso; lra.
Qed.

Lemma insert_desc_app_not_greater x l y :
  (key y <= key x)%Q ->
  spec.insert_desc key x (l ++ [y]) = spec.insert_desc key x l ++ [y].
Proof.
  intros Hyx. induction l as [| z l IH]; simpl.
  - destruct (Qlt_le_dec (key x) (key y)); [| reflexivity].
    exfalso; lra.
  - destruct (Qlt_le_dec (key x) (key z)); [now rewrite IH | reflexivity].
Qed.

Lemma rev_insert_asc x l :
  spec.ascending key l ->
  rev (bot.insert_asc key x l) = spec.insert_desc key x (rev l).
Proof.
  unfold spec.ascending.
  induction 1 as [| y l Hs IH Hall]; simpl; [reflexivity |].
  destruct (Qlt_le_dec (key x) (key y)) as [Hlt | Hle]; simpl.
  - rewrite <- app_assoc. simpl.
    rewrite insert_desc_app_greater.
    + simpl. destruct (Qlt_le_dec (key x) (key y)); [reflexivity |].
      exfalso; lra.
    + apply List.Forall_rev.
      eapply Forall_impl; [exact Hall |].
      intros z Hz. simpl in Hz. lra.
  - rewrite IH. now rewrite insert_desc_app_not_greater.
Qed.

Lemma sort_reverse_stable l :
  bot.sort_reverse key l = spec.stable_sort_desc key l.
Proof.
  unfold bot.sort_reverse.
  induction l as [| x l IH]; simpl; [reflexivity |].
  rewrite sort_asc_snoc, rev_insert_asc by apply sort_asc_ascending.
  now rewrite IH.
Qed.
End SortFacts.

Section BstSort.
Context {V : Type}.

Lemma nodes_insert_behind (node : bst.BSTNode V) k v :
  bst.ordered node ->
  bst.nodes_desc (bst._insert_rec node k v) =
  spec.insert_behind fst (k, v) (bst.nodes_desc node).
Proof.
  induction node as [| k0 v0 l IHl r IHr]; simpl; [reflexivity |].
  intros (Hl & Hr & Ol & Or).
  destruct (Qlt_le_dec k0 k) as [Hlt | Hle]; simpl.
  - rewrite IHr by exact Or.
    now rewrite insert_behind_app_smaller.
  - rewrite IHl by exact Ol.
    rewrite (insert_behind_app_not_smaller fst (k, v) (bst.nodes_desc r)).
    + simpl. destruct (Qlt_le_dec k0 k); [| reflexivity].
      exfalso; lra.
    + eapply Forall_impl; [exact Hr |].
      intros kv Hkv. simpl in *.
      apply Qle_trans with k0; [exact Hle | now apply Qlt_le_weak].
Qed.

Lemma nodes_insert_all (kvs : list (Q * V)) :
  bst.nodes_desc (bst._root (bst.insert_all bst.init kvs)) =
  spec.stable_sort_desc fst kvs.
Proof.
  induction kvs as [| kv kvs IH] using rev_ind; [reflexivity |].
  rewrite insert_all_snoc, stable_sort_desc_snoc. simpl.
  rewrite nodes_insert_behind by apply insert_all_ordered.
  rewrite IH. now destruct kv.
Qed.
End BstSort.

(** C9. Inserting a list of (score, entry) pairs in order and reading the
    tree with [get_ranked_descending] gives the entries in the order of the
    stable descending sort of the list by score, which is also the order that
    [sort(key=..., reverse=True)] of [rank_symbols] gives; equal scores keep
    their insertion order. *)
Theorem bst_ranking_is_stable_sort {V : Type} (kvs : list (Q * V)) :
  bst.get_ranked_descending (bst.insert_all bst.init kvs) =
    map snd (spec.stable_sort_desc fst kvs) /\
  bst.get_ranked_descending (bst.insert_all bst.init kvs) =
    map snd (bot.sort_reverse fst kvs).
Proof.
  rewrite sort_reverse_stable, get_ranked_descending_nodes, nodes_insert_all.
  split; reflexivity.
Qed.

(** ** The cycle of [run_once] *)

Section CycleFacts.
Context {W : Type} `{bot.Alpaca W}.
Implicit Types (m : bot.machine W) (x : bot.Ranked) (vars : Q * bot.State).

Lemma bind_returns {A B : Type} (c : bot.M W A) (k : A -> bot.M W B) m a m' :
  c m = (inr a, m') -> bot.bind c k m = k a m'.
Proof. unfold bot.bind. now intros ->. Qed.

Lemma bind_raises {A B : Type} (c : bot.M W A) (k : A -> bot.M W B) m e m' :
  c m = (inl e, m') -> bot.bind c k m = (inl e, m').
Proof. unfold bot.bind. now intros ->. Qed.

Lemma for_in_app {A S : Type} (body : A -> S -> bot.M W S) (l l' : list A) (s : S) m :
  bot.for_in body (l ++ l') s m =
  bot.bind (bot.for_in body l s) (bot.for_in body l') m.
Proof.
  revert s m. induction l as [| a l IH]; intros s m; simpl; [reflexivity |].
  unfold bot.bind in *.
  destruct (body a s m) as [[e | s'] m']; [reflexivity |].
  apply IH.
Qed.



(** [current_position_qty] never raises and touches neither the orders nor
    the saved states. *)
Lemma current_position_qty_returns symbol m :
  exists q m',
    bot.current_position_qty symbol m = (inr q, m') /\
    bot.orders m' = bot.orders m /\ bot.saved m' = bot.saved m /\
    bot.world m' = snd (bot.get_open_position symbol (bot.world m)) /\
    q = match fst (bot.get_open_position symbol (bot.world m)) with
        | inr pos_qty => bot.int_of_float pos_qty
        | inl _ => 0%Z
        end.
Proof.
  unfold bot.current_position_qty, bot.try_except, bot.bind, bot.call, bot.ret.
  destruct (bot.get_open_position symbol (bot.world m)) as [[e | q] w]; simpl;
    eexists _, _; repeat split; reflexivity.
Qed.

Lemma submit_orders order m :
  bot.orders (snd (bot.submit order m)) = bot.orders m ++ [order] /\
  bot.saved (snd (bot.submit order m)) = bot.saved m /\
  bot.world (snd (bot.submit order m)) = snd (bot.submit_order order (bot.world m)) /\
  fst (bot.submit order m) =
    match fst (bot.submit_order order (bot.world m)) with
    | inl e => inl (bot.Upstream e)
    | inr a => inr a
    end.
Proof.
  unfold bot.submit.
  destruct (bot.submit_order order (bot.world m)) as [r w]; simpl.
  repeat split; reflexivity.
Qed.
(** The body of the sell loop, by cases on what the position lookup
    gave. *)
Lemma sell_body_sells today sym trend short_avg long_avg latest cash state m q m1 :
  bot.current_position_qty sym m = (inr q, m1) ->
  (0 < q)%Z -> (short_avg < long_avg)%Q ->
  let order := {| bot.symbol := sym; bot.qty := q; bot.side := bot.SELL;
                  bot.time_in_force := bot.DAY |} in
  bot.sell_body today (sym, trend, short_avg, long_avg, latest) (cash, state) m =
    (match fst (bot.submit_order order (bot.world m1)) with
     | inr _ => inr ((cash + inject_Z q * latest)%Q,
                     bot.set_last_trade_day state sym (bot.DateStr today))
     | inl e => inl (bot.Upstream e)
     end,
     {| bot.world := snd (bot.submit_order order (bot.world m1));
        bot.orders := bot.orders m1 ++ [order];
        bot.saved := bot.saved m1 |}).
Proof.
  intros Hq Hpos Hlt order. unfold bot.sell_body.
  rewrite (bind_returns _ _ _ _ _ Hq).
  destruct (Z.leb_spec q 0); [lia |].
  destruct (Qlt_le_dec short_avg long_avg); [| exfalso; lra].
  unfold bot.market_sell, bot.bind, bot.submit, bot.ret, bot._format_day.
  fold order.
  now destruct (bot.submit_order order (bot.world m1)) as [[e | []] w].
Qed.

Lemma sell_body_keeps today sym trend short_avg long_avg latest cash state m q m1 :
  bot.current_position_qty sym m = (inr q, m1) ->
  ~ ((0 < q)%Z /\ (short_avg < long_avg)%Q) ->
  bot.sell_body today (sym, trend, short_avg, long_avg, latest) (cash, state) m =
    (inr (cash, state), m1).
Proof.
  intros Hq Hno. unfold bot.sell_body.
  rewrite (bind_returns _ _ _ _ _ Hq).
  destruct (Z.leb_spec q 0); [reflexivity |].
  destruct (Qlt_le_dec short_avg long_avg); [| reflexivity].
  exfalso. apply Hno. now split.
Qed.

(** The body of the buy loop, by cases on the trend, on the last trade day
    and on the three conditions. *)
Lemma buy_body_skips settings today sym trend short_avg long_avg price cash state m :
  (trend <= 0)%Q ->
  bot.buy_body settings today (sym, trend, short_avg, long_avg, price) (cash, state) m =
    (inr (cash, state), m).
Proof.
  intros Hle. unfold bot.buy_body.
  apply Qle_bool_iff in Hle. now rewrite Hle.
Qed.

Lemma buy_body_unreadable settings today sym trend short_avg long_avg price cash state m e :
  (0 < trend)%Q ->
  bot.days_since (bot.last_trade_day state !! sym) today = inl e ->
  bot.buy_body settings today (sym, trend, short_avg, long_avg, price) (cash, state) m =
    (inl e, m).
Proof.
  intros Hpos He. unfold bot.buy_body.
  destruct (Qle_bool trend 0) eqn:Htrend; [apply Qle_bool_iff in Htrend; exfalso; lra |].
  apply bind_raises. unfold bot.lift. now rewrite He.
Qed.

Lemma buy_body_buys settings today sym trend short_avg long_avg price cash state m
    waited q m1 :
  (0 < trend)%Q ->
  bot.days_since (bot.last_trade_day state !! sym) today = inr waited ->
  bot.current_position_qty sym m = (inr q, m1) ->
  let cost := (inject_Z (bot.shares_per_trade settings) * price)%Q in
  let order := {| bot.symbol := sym; bot.qty := bot.shares_per_trade settings;
                  bot.side := bot.BUY; bot.time_in_force := bot.DAY |} in
  (bot.wait_days settings <= waited)%Z ->
  (q + bot.shares_per_trade settings <= bot.max_shares settings)%Z ->
  (cost <= cash)%Q ->
  bot.buy_body settings today (sym, trend, short_avg, long_avg, price) (cash, state) m =
    (match fst (bot.submit_order order (bot.world m1)) with
     | inr _ => inr ((cash - cost)%Q,
                     bot.set_last_trade_day state sym (bot.DateStr today))
     | inl e => inl (bot.Upstream e)
     end,
     {| bot.world := snd (bot.submit_order order (bot.world m1));
        bot.orders := bot.orders m1 ++ [order];
        bot.saved := bot.saved m1 |}).
Proof.
  intros Hpos Hwaited Hq cost order Hw Hu Hc. unfold bot.buy_body.
  destruct (Qle_bool trend 0) eqn:Htrend; [apply Qle_bool_iff in Htrend; exfalso; lra |].
  rewrite (bind_returns _ _ m waited m) by (unfold bot.lift; now rewrite Hwaited).
  rewrite (bind_returns _ _ _ _ _ Hq).
  fold cost. apply Qle_bool_iff in Hc. rewrite Hc.
  destruct (Z.leb_spec (bot.wait_days settings) waited); [| lia].
  destruct (Z.leb_spec (q + bot.shares_per_trade settings) (bot.max_shares settings));
    [| lia].
  simpl. unfold bot.market_buy, bot.bind, bot.submit, bot.ret, bot._format_day.
  fold order.
  now destruct (bot.submit_order order (bot.world m1)) as [[e | []] w].
Qed.

Lemma buy_body_keeps settings today sym trend short_avg long_avg price cash state m
    waited q m1 :
  (0 < trend)%Q ->
  bot.days_since (bot.last_trade_day state !! sym) today = inr waited ->
  bot.current_position_qty sym m = (inr q, m1) ->
  ~ ((bot.wait_days settings <= waited)%Z /\
     (q + bot.shares_per_trade settings <= bot.max_shares settings)%Z /\
     (inject_Z (bot.shares_per_trade settings) * price <= cash)%Q) ->
  bot.buy_body settings today (sym, trend, short_avg, long_avg, price) (cash, state) m =
    (inr (cash, state), m1).
Proof.
  intros Hpos Hwaited Hq Hno. unfold bot.buy_body.
  destruct (Qle_bool trend 0) eqn:Htrend; [apply Qle_bool_iff in Htrend; exfalso; lra |].
  rewrite (bind_returns _ _ m waited m) by (unfold bot.lift; now rewrite Hwaited).
  rewrite (bind_returns _ _ _ _ _ Hq).
  destruct (Z.leb_spec (bot.wait_days settings) waited); [| reflexivity].
  destruct (Z.leb_spec (q + bot.shares_per_trade settings) (bot.max_shares settings));
    [| reflexivity].
  destruct (Qle_bool _ cash) eqn:Hc; [| reflexivity].
  apply Qle_bool_iff in Hc. exfalso. apply Hno. now repeat split.
Qed.
End CycleFacts.





(** ** What a computation leaves of the orders and the saved states *)

Section Quiet.
Context {W : Type} `{bot.Alpaca W}.
Implicit Types (m : bot.machine W).

Lemma quiet_ret {A : Type} (a : A) : quiet (W := W) (bot.ret a).
Proof. now intros m. Qed.

Lemma quiet_raise {A : Type} (e : bot.exn) : quiet (W := W) (bot.raise (A := A) e).
Proof. now intros m. Qed.

Lemma quiet_lift {A : Type} (r : bot.exn + A) : quiet (W := W) (bot.lift r).
Proof. now intros m. Qed.

Lemma quiet_call {A : Type} (f : W -> (bot.upstream_exn + A) * W) : quiet (bot.call f).
Proof. intros m. unfold bot.call. now destruct (f (bot.world m)). Qed.

Lemma quiet_bind {A B : Type} (c : bot.M W A) (k : A -> bot.M W B) :
  quiet c -> (forall a, quiet (k a)) -> quiet (bot.bind c k).
Proof.
  intros Hc Hk m. unfold bot.bind.
  specialize (Hc m). destruct (c m) as [[e | a] m']; simpl in Hc; [exact Hc |].
  destruct (Hk a m') as [Ho Hs]. now rewrite Ho, Hs.
Qed.

Lemma quiet_try_except {A : Type} (c : bot.M W A) (handler : bot.exn -> bot.M W A) :
  quiet c -> (forall e, quiet (handler e)) -> quiet (bot.try_except c handler).
Proof.
  intros Hc Hh m. unfold bot.try_except.
  specialize (Hc m). destruct (c m) as [[e | a] m']; simpl in Hc; [| exact Hc].
  destruct (Hh e m') as [Ho Hs]. now rewrite Ho, Hs.
Qed.

Lemma quiet_for_in {A S : Type} (body : A -> S -> bot.M W S) (l : list A) (s : S) :
  (forall a s, quiet (body a s)) -> quiet (bot.for_in body l s).
Proof.
  intros Hbody. revert s.
  induction l as [| a l IH]; intros s; simpl.
  - apply quiet_ret.
  - apply quiet_bind; [apply Hbody | exact IH].
Qed.

Lemma quiet_get_last_n_closes symbol n feed : quiet (bot.get_last_n_closes symbol n feed).
Proof.
  unfold bot.get_last_n_closes.
  apply quiet_bind.
  - apply quiet_try_except; [apply quiet_call |].
    intros [[msg | name] | | | |]; try apply quiet_raise.
    repeat match goal with
           | |- context [if ?b then _ else _] => destruct b
           end; apply quiet_raise.
  - intros closes. destruct (_ <? _)%Z; [apply quiet_raise | apply quiet_ret].
Qed.

Lemma quiet_current_position_qty symbol : quiet (bot.current_position_qty symbol).
Proof.
  unfold bot.current_position_qty.
  apply quiet_try_except.
  - apply quiet_bind; [apply quiet_call | intros; apply quiet_ret].
  - intros; apply quiet_ret.
Qed.

Lemma quiet_rank_symbols symbols short_window long_window feed :
  quiet (bot.rank_symbols symbols short_window long_window feed).
Proof.
  unfold bot.rank_symbols.
  apply quiet_bind; [| intros; apply quiet_ret].
  apply quiet_for_in. intros sym ranked. unfold bot.rank_body.
  apply quiet_bind; [apply quiet_get_last_n_closes | intros closes].
  repeat (apply quiet_bind; [apply quiet_lift | intros ?]).
  apply quiet_ret.
Qed.
End Quiet.

(** ** The orders of the two passes *)

Section Orders.
Context {W : Type} `{bot.Alpaca W}.
Implicit Types (m : bot.machine W) (x : bot.Ranked).

Lemma quiet_emits {A : Type} sd syms (c : bot.M W A) : quiet c -> emits sd syms c.
Proof.
  intros Hc m. destruct (Hc m) as [Ho Hs].
  exists []. rewrite app_nil_r. repeat split; auto.
  apply sublist_nil_l.
Qed.

Lemma emits_bind {A B : Type} sd syms syms' (c : bot.M W A) (k : A -> bot.M W B) :
  emits sd syms c -> (forall a, emits sd syms' (k a)) ->
  emits sd (syms ++ syms') (bot.bind c k).
Proof.
  intros Hc Hk m. unfold bot.bind.
  destruct (Hc m) as (os & Ho & Hs & Hside & Hsub).
  destruct (c m) as [[e | a] m']; simpl in *.
  - exists os. repeat split; auto.
    apply sublist_inserts_r. exact Hsub.
  - destruct (Hk a m') as (os' & Ho' & Hs' & Hside' & Hsub').
    exists (os ++ os'). rewrite Ho', Ho, Hs', Hs, app_assoc, map_app.
    repeat split; auto.
    + apply Forall_app. now split.
    + now apply sublist_app.
Qed.

Lemma emits_submit sd sym q :
  emits sd [sym]
    (bot.submit {| bot.symbol := sym; bot.qty := q; bot.side := sd;
                   bot.time_in_force := bot.DAY |}).
Proof.
  intros m. destruct (submit_orders
    {| bot.symbol := sym; bot.qty := q; bot.side := sd; bot.time_in_force := bot.DAY |} m)
    as (Ho & Hs & _).
  eexists. split; [exact Ho |]. split; [exact Hs |].
  split; [repeat constructor | reflexivity].
Qed.

Lemma emits_sell_body today x vars :
  emits bot.SELL [bot.ranked_sym x] (bot.sell_body today x vars).
Proof.
  destruct x as [[[[sym trend] short_avg] long_avg] latest], vars as [cash state].
  unfold bot.sell_body. simpl.
  change [sym] with ([] ++ [sym]).
  apply emits_bind; [apply quiet_emits, quiet_current_position_qty | intros q].
  destruct (q <=? 0)%Z; [apply quiet_emits, quiet_ret |].
  destruct (Qlt_le_dec short_avg long_avg); [| apply quiet_emits, quiet_ret].
  change [sym] with ([sym] ++ []).
  apply emits_bind; [apply emits_submit | intros; apply quiet_emits, quiet_ret].
Qed.

Lemma emits_buy_body settings today x vars :
  emits bot.BUY [bot.ranked_sym x] (bot.buy_body settings today x vars).
Proof.
  destruct x as [[[[sym trend] short_avg] long_avg] latest], vars as [cash state].
  unfold bot.buy_body. simpl.
  destruct (Qle_bool trend 0); [apply quiet_emits, quiet_ret |].
  change [sym] with ([] ++ [] ++ [sym]).
  apply emits_bind; [apply quiet_emits, quiet_lift | intros waited].
  apply emits_bind; [apply quiet_emits, quiet_current_position_qty | intros q].
  destruct (_ && _ && _); [| apply quiet_emits, quiet_ret].
  change [sym] with ([sym] ++ []).
  apply emits_bind; [apply emits_submit | intros; apply quiet_emits, quiet_ret].
Qed.

Lemma emits_for_in {S : Type} sd (body : bot.Ranked -> S -> bot.M W S)
    (l : list bot.Ranked) (s : S) :
  (forall x s, emits sd [bot.ranked_sym x] (body x s)) ->
  emits sd (map bot.ranked_sym l) (bot.for_in body l s).
Proof.
  intros Hbody. revert s.
  induction l as [| x l IH]; intros s; simpl.
  - apply quiet_emits, quiet_ret.
  - change (bot.ranked_sym x :: map bot.ranked_sym l)
      with ([bot.ranked_sym x] ++ map bot.ranked_sym l).
    apply emits_bind; [apply Hbody | exact IH].
Qed.

(** The orders of [run_once] from the market-clock check on. *)
Lemma trade_orders settings today ranked cash state m :
  exists sells buys,
    bot.orders (snd (bot.trade settings today ranked cash state m)) =
      bot.orders m ++ sells ++ buys /\
    Forall (fun o => bot.side o = bot.SELL) sells /\
    Forall (fun o => bot.side o = bot.BUY) buys /\
    sublist (map bot.symbol sells) (map bot.ranked_sym ranked) /\
    sublist (map bot.symbol buys) (map bot.ranked_sym ranked).
Proof.
  unfold bot.trade, bot.bind at 1.
  destruct (quiet_call bot.get_clock m) as [Ho _].
  destruct (bot.call bot.get_clock m) as [[e | is_open] m1]; simpl in Ho.
  { exists [], []. simpl. rewrite app_nil_r.
    repeat split; auto; apply sublist_nil_l. }
  destruct is_open; simpl.
  2: { exists [], []. simpl. rewrite app_nil_r, Ho.
       repeat split; auto; apply sublist_nil_l. }
  unfold bot.bind at 1.
  destruct (emits_for_in bot.SELL (bot.sell_body today) ranked (cash, state)
              (emits_sell_body today) m1) as (sells & Hos & _ & Hsells & Hsub).
  destruct (bot.for_in (bot.sell_body today) ranked (cash, state) m1)
    as [[e | vars] m2]; simpl in Hos.
  { exists sells, []. rewrite app_nil_r. simpl. rewrite Hos, Ho.
    repeat split; auto. apply sublist_nil_l. }
  unfold bot.bind.
  destruct (emits_for_in bot.BUY (bot.buy_body settings today) ranked vars
              (emits_buy_body settings today) m2) as (buys & Hob & _ & Hbuys & Hsubb).
  exists sells, buys.
  destruct (bot.for_in (bot.buy_body settings today) ranked vars m2)
    as [[e | vars'] m3]; simpl in *; rewrite Hob, Hos, Ho, <- app_assoc;
    repeat split; auto.
Qed.
End Orders.

Section RunFacts.
Context {W : Type} `{bot.Alpaca W}.
Implicit Types (m : bot.machine W).

(** Once the account and the ranking are there, [run_once] is what follows
    the market-clock check. *)
Lemma run_once_trade settings today state m cash m1 ranked m2 :
  bot.call bot.get_account m = (inr cash, m1) ->
  bot.rank_symbols (bot.watchlist settings) (bot.short_window settings)
    (bot.long_window settings) (bot.data_feed settings) m1 = (inr ranked, m2) ->
  bot.run_once settings today state m = bot.trade settings today ranked cash state m2 /\
  bot.orders m2 = bot.orders m /\ bot.saved m2 = bot.saved m.
Proof.
  intros Hacc Hrank. unfold bot.run_once.
  rewrite (bind_returns _ _ _ _ _ Hacc), (bind_returns _ _ _ _ _ Hrank).
  split; [reflexivity |].
  pose proof (quiet_call bot.get_account m) as [Ho1 Hs1].
  pose proof (quiet_rank_symbols (bot.watchlist settings) (bot.short_window settings)
                (bot.long_window settings) (bot.data_feed settings) m1) as [Ho2 Hs2].
  rewrite Hacc in Ho1, Hs1. rewrite Hrank in Ho2, Hs2. simpl in *.
  split; congruence.
Qed.

Lemma rank_symbols_descending symbols short_window long_window feed m ranked m' :
  bot.rank_symbols symbols short_window long_window feed m = (inr ranked, m') ->
  spec.descending bot.ranked_trend ranked.
Proof.
  unfold bot.rank_symbols, bot.bind, bot.ret.
  destruct (bot.for_in _ symbols [] m) as [[e | l] m1]; [discriminate |].
  intros [= <- _]. rewrite sort_reverse_stable.
  apply stable_sort_desc_descending.
Qed.

(** A property of the loop variables that every body keeps is kept by the
    loop. *)
Lemma for_in_keeps {A S : Type} (P : S -> Prop) (body : A -> S -> bot.M W S)
    (l : list A) :
  Forall (fun a => forall s m s' m', P s -> body a s m = (inr s', m') -> P s') l ->
  forall s m s' m', P s -> bot.for_in body l s m = (inr s', m') -> P s'.
Proof.
  induction 1 as [| a l Ha Hl IH]; intros s m s' m' Hs; simpl.
  - unfold bot.ret. now intros [= <- _].
  - unfold bot.bind. destruct (body a s m) as [[e | s1] m1] eqn:Hb; [discriminate |].
    intros Hrest. eapply IH; [| exact Hrest]. eapply Ha; eauto.
Qed.

Lemma sell_body_cash today x cash state m cash' state' m' :
  (0 <= bot.ranked_latest x)%Q -> (0 <= cash)%Q ->
  bot.sell_body today x (cash, state) m = (inr (cash', state'), m') ->
  (0 <= cash')%Q.
Proof.
  destruct x as [[[[sym trend] short_avg] long_avg] latest]. simpl.
  intros Hlatest Hcash. unfold bot.sell_body.
  destruct (current_position_qty_returns sym m) as (q & m1 & Hq & _).
  rewrite (bind_returns _ _ _ _ _ Hq).
  destruct (Z.leb_spec q 0) as [Hle | Hgt].
  - unfold bot.ret. now intros [= <- _ _].
  - destruct (Qlt_le_dec short_avg long_avg).
    + unfold bot.bind, bot.ret.
      destruct (bot.market_sell sym q m1) as [[e | []] m2]; [discriminate |].
      intros [= <- _ _].
      assert (0 <= inject_Z q)%Q by (change 0%Q with (inject_Z 0); rewrite <- Zle_Qle; lia).
      assert (0 <= inject_Z q * latest)%Q by now apply Qmult_le_0_compat.
      lra.
    + unfold bot.ret. now intros [= <- _ _].
Qed.

Lemma buy_body_cash settings today x cash state m cash' state' m' :
  (0 <= cash)%Q ->
  bot.buy_body settings today x (cash, state) m = (inr (cash', state'), m') ->
  (0 <= cash')%Q.
Proof.
  destruct x as [[[[sym trend] short_avg] long_avg] price].
  intros Hcash. unfold bot.buy_body.
  destruct (Qle_bool trend 0); [unfold bot.ret; now intros [= <- _ _] |].
  unfold bot.bind at 1, bot.lift.
  destruct (bot.days_since _ today) as [e | waited]; [discriminate |].
  destruct (current_position_qty_returns sym m) as (q & m1 & Hq & _).
  rewrite (bind_returns _ _ _ _ _ Hq).
  destruct (Qle_bool _ cash) eqn:Hafford;
    [| rewrite andb_false_r; unfold bot.ret; now intros [= <- _ _]].
  destruct (_ && _); simpl; [| unfold bot.ret; now intros [= <- _ _]].
  apply Qle_bool_iff in Hafford.
  unfold bot.bind, bot.ret.
  destruct (bot.market_buy _ _ m1) as [[e | []] m2]; [discriminate |].
  intros [= <- _ _]. lra.
Qed.
End RunFacts.

(** C3. In every cycle that reaches the trading rules, the ranking is in
    descending order of trend, and the orders that the cycle submits are SELL
    orders followed by BUY orders, the symbols of each group in the order of
    the ranking. *)
Theorem sells_precede_buys {W : Type} `{bot.Alpaca W} (settings : bot.Settings)
    (today : Z) (state : bot.State) (m m1 m2 : bot.machine W) (cash : Q)
    (ranked : list bot.Ranked) :
  bot.call bot.get_account m = (inr cash, m1) ->
  bot.rank_symbols (bot.watchlist settings) (bot.short_window settings)
    (bot.long_window settings) (bot.data_feed settings) m1 = (inr ranked, m2) ->
  StronglySorted (fun x y => (bot.ranked_trend y <= bot.ranked_trend x)%Q) ranked /\
  exists sells buys,
    bot.orders (snd (bot.run_once settings today state m)) =
      bot.orders m ++ sells ++ buys /\
    Forall (fun o => bot.side o = bot.SELL) sells /\
    Forall (fun o => bot.side o = bot.BUY) buys /\
    sublist (map bot.symbol sells) (map bot.ranked_sym ranked) /\
    sublist (map bot.symbol buys) (map bot.ranked_sym ranked).
Proof.
  intros Hacc Hrank.
  split; [exact (rank_symbols_descending _ _ _ _ _ _ _ Hrank) |].
  destruct (run_once_trade settings today state _ _ _ _ _ Hacc Hrank) as (-> & Ho & _).
  rewrite <- Ho. apply trade_orders.
Qed.

Lemma sells_precede_buys_witness :
  exists sells buys,
    bot.orders (snd (bot.run_once (paper.settings ["PFE"; "T"]) 100 paper.empty_state
                       (paper.start (paper.rising_and_falling true)))) =
      [] ++ sells ++ buys /\
    Forall (fun o => bot.side o = bot.SELL) sells /\
    Forall (fun o => bot.side o = bot.BUY) buys /\
    sublist (map bot.symbol sells) ["PFE"; "T"] /\
    sublist (map bot.symbol buys) ["PFE"; "T"].
Proof.
  exact (proj2 (sells_precede_buys (paper.settings ["PFE"; "T"]) 100 paper.empty_state
                  (paper.start (paper.rising_and_falling true))
                  (paper.start (paper.rising_and_falling true))
                  (paper.start (paper.rising_and_falling true))
                  10000
                  [("PFE", 3 # 6, 23 # 2, 33 # 3, 12); ("T", -24 # 6, 36 # 2, 66 # 3, 16)]%Q
                  eq_refl eq_refl)).
Defined.

(** C7. In every cycle in which the market clock reports that the market is
    closed, no order is submitted and the state, as it was loaded, is saved
    before the cycle returns. *)
Theorem market_closed_saves_state {W : Type} `{bot.Alpaca W} (settings : bot.Settings)
    (today : Z) (state : bot.State) (m m1 m2 : bot.machine W) (cash : Q)
    (ranked : list bot.Ranked) (w : W) :
  bot.call bot.get_account m = (inr cash, m1) ->
  bot.rank_symbols (bot.watchlist settings) (bot.short_window settings)
    (bot.long_window settings) (bot.data_feed settings) m1 = (inr ranked, m2) ->
  bot.get_clock (bot.world m2) = (inr false, w) ->
  bot.run_once settings today state m =
    (inr tt, {| bot.world := w; bot.orders := bot.orders m;
                bot.saved := bot.saved m ++ [state] |}).
Proof.
  intros Hacc Hrank Hclock.
  destruct (run_once_trade settings today state _ _ _ _ _ Hacc Hrank) as (-> & Ho & Hs).
  unfold bot.trade, bot.bind, bot.call. rewrite Hclock. simpl.
  unfold bot.save_state. simpl. now rewrite Ho, Hs.
Qed.

Lemma market_closed_saves_state_witness :
  bot.run_once (paper.settings ["PFE"; "T"]) 100 paper.empty_state
    (paper.start (paper.rising_and_falling false)) =
  (inr tt, {| bot.world := paper.rising_and_falling false; bot.orders := [];
              bot.saved := [] ++ [paper.empty_state] |}).
Proof.
  exact (market_closed_saves_state (paper.settings ["PFE"; "T"]) 100 paper.empty_state
           (paper.start (paper.rising_and_falling false))
           (paper.start (paper.rising_and_falling false))
           (paper.start (paper.rising_and_falling false))
           10000
           [("PFE", 3 # 6, 23 # 2, 33 # 3, 12); ("T", -24 # 6, 36 # 2, 66 # 3, 16)]%Q
           (paper.rising_and_falling false)
           eq_refl eq_refl eq_refl).
Defined.

(** C10. When the cash at the start of the trading rules and the latest
    prices of the ranking are not negative, the running cash is not negative
    after any entry of the sell pass and after any entry of the buy pass. *)
Theorem running_cash_nonnegative {W : Type} `{bot.Alpaca W} (settings : bot.Settings)
    (today : Z) (ranked pre post : list bot.Ranked) (cash0 : Q) (state0 : bot.State)
    (m0 : bot.machine W) :
  (0 <= cash0)%Q ->
  Forall (fun x => (0 <= bot.ranked_latest x)%Q) ranked ->
  ranked = pre ++ post ->
  (forall cash state m,
     bot.for_in (bot.sell_body today) pre (cash0, state0) m0 = (inr (cash, state), m) ->
     (0 <= cash)%Q) /\
  (forall cash1 state1 m1 cash state m,
     bot.for_in (bot.sell_body today) ranked (cash0, state0) m0 = (inr (cash1, state1), m1) ->
     bot.for_in (bot.buy_body settings today) pre (cash1, state1) m1 = (inr (cash, state), m) ->
     (0 <= cash)%Q).
Proof.
  intros Hcash Hprices ->.
  assert (Hsell : forall l, Forall (fun x => (0 <= bot.ranked_latest x)%Q) l ->
            forall cash state m,
              bot.for_in (bot.sell_body today) l (cash0, state0) m0 = (inr (cash, state), m) ->
              (0 <= cash)%Q).
  { intros l Hl cash state m Hrun.
    apply (for_in_keeps (fun vars => (0 <= fst vars)%Q) (bot.sell_body today) l)
      with (s := (cash0, state0)) (m := m0) (s' := (cash, state)) (m' := m);
      [| exact Hcash | exact Hrun].
    eapply Forall_impl; [exact Hl |].
    intros x Hx [c s] m1 [c' s'] m1' Hc Hb. simpl in *.
    eapply sell_body_cash; eauto. }
  split.
  - apply Hsell. apply Forall_app in Hprices. tauto.
  - intros cash1 state1 m1 cash state m Hsells Hbuys.
    apply (for_in_keeps (fun vars => (0 <= fst vars)%Q) (bot.buy_body settings today) pre)
      with (s := (cash1, state1)) (m := m1) (s' := (cash, state)) (m' := m);
      [| exact (Hsell _ Hprices _ _ _ Hsells) | exact Hbuys].
    apply Forall_forall. intros x _ [c s] m2 [c' s'] m2' Hc Hb. simpl in *.
    eapply buy_body_cash; eauto.
Qed.

Lemma running_cash_nonnegative_witness :
  (0 <= 10000 + inject_Z 10 * 16 - inject_Z 50 * 12)%Q.
Proof.
  refine (proj2 (running_cash_nonnegative (paper.settings ["PFE"; "T"]) 100
            [("PFE", 3 # 6, 23 # 2, 33 # 3, 12); ("T", -24 # 6, 36 # 2, 66 # 3, 16)]%Q
            [("PFE", 3 # 6, 23 # 2, 33 # 3, 12)]%Q
            [("T", -24 # 6, 36 # 2, 66 # 3, 16)]%Q
            10000 paper.empty_state (paper.start (paper.rising_and_falling true))
            _ _ eq_refl)
          (10000 + inject_Z 10 * 16)%Q
          (bot.set_last_trade_day paper.empty_state "T" (bot.DateStr 100))
          {| bot.world := paper.rising_and_falling true;
             bot.orders := [{| bot.symbol := "T"; bot.qty := 10; bot.side := bot.SELL;
                               bot.time_in_force := bot.DAY |}];
             bot.saved := [] |}
          _ _ _ eq_refl eq_refl).
  - vm_compute. discriminate.
  - repeat constructor; vm_compute; discriminate.
Defined.

Section Failures.
Context {W : Type} `{bot.Alpaca W}.
Implicit Types (m : bot.machine W).

Lemma call_result {A : Type} (f : W -> (bot.upstream_exn + A) * W) m r w :
  f (bot.world m) = (r, w) ->
  bot.call f m =
    (match r with inl e => inl (bot.Upstream e) | inr a => inr a end, with_world m w).
Proof. unfold bot.call. now intros ->. Qed.

Lemma get_last_n_closes_fetched symbol n feed m closes w :
  bot.get_stock_bars symbol feed (bot.world m) = (inr closes, w) ->
  bot.get_last_n_closes symbol n feed m =
    (if (Z.of_nat (length closes) <? n)%Z
     then inl (bot.RuntimeError (bot.NotEnoughBars symbol n (Z.of_nat (length closes))))
     else inr (bot.slice_from (- n) closes),
     with_world m w).
Proof.
  intros Hfetch. unfold bot.get_last_n_closes, bot.bind, bot.try_except.
  rewrite (call_result _ _ _ _ Hfetch).
  now destruct (_ <? _)%Z.
Qed.

Lemma get_last_n_closes_failed symbol n feed m e w :
  bot.get_stock_bars symbol feed (bot.world m) = (inl e, w) ->
  bot.get_last_n_closes symbol n feed m = (inl (reraised e), with_world m w).
Proof.
  intros Hfetch. unfold bot.get_last_n_closes, bot.bind, bot.try_except.
  rewrite (call_result _ _ _ _ Hfetch).
  destruct e as [msg | name]; simpl; [| reflexivity].
  destruct (_ && _); [reflexivity |].
  destruct (_ || _); reflexivity.
Qed.

(** An exception in the body ends the loop. *)
Lemma for_in_raises {A S : Type} (body : A -> S -> bot.M W S) (pre post : list A) (a : A)
    (s s' : S) m m' e m'' :
  bot.for_in body pre s m = (inr s', m') ->
  body a s' m' = (inl e, m'') ->
  bot.for_in body (pre ++ a :: post) s m = (inl e, m'').
Proof.
  intros Hpre Hbody. rewrite for_in_app, (bind_returns _ _ _ _ _ Hpre). simpl.
  now apply bind_raises.
Qed.

(** An exception while the closes of a symbol are fetched ends the cycle. *)
Lemma run_once_ranking_raises settings today state m cash m1 pre sym post acc m2 e m3 :
  bot.watchlist settings = pre ++ sym :: post ->
  bot.call bot.get_account m = (inr cash, m1) ->
  bot.for_in (bot.rank_body (bot.short_window settings) (bot.long_window settings)
                (bot.data_feed settings)) pre [] m1 = (inr acc, m2) ->
  bot.get_last_n_closes sym (bot.long_window settings) (bot.data_feed settings) m2 =
    (inl e, m3) ->
  bot.run_once settings today state m = (inl e, m3) /\
  bot.orders m3 = bot.orders m /\ bot.saved m3 = bot.saved m.
Proof.
  intros Hlist Hacc Hpre Hfetch.
  assert (Hrank : bot.rank_symbols (bot.watchlist settings) (bot.short_window settings)
            (bot.long_window settings) (bot.data_feed settings) m1 = (inl e, m3)).
  { unfold bot.rank_symbols. apply bind_raises. rewrite Hlist.
    eapply for_in_raises; [exact Hpre |].
    unfold bot.rank_body. now apply bind_raises. }
  split.
  - unfold bot.run_once. rewrite (bind_returns _ _ _ _ _ Hacc).
    now apply bind_raises.
  - pose proof (quiet_call bot.get_account m) as [Ho1 Hs1].
    pose proof (quiet_rank_symbols (bot.watchlist settings) (bot.short_window settings)
                  (bot.long_window settings) (bot.data_feed settings) m1) as [Ho2 Hs2].
    rewrite Hacc in Ho1, Hs1. rewrite Hrank in Ho2, Hs2. simpl in *.
    split; congruence.
Qed.
End Failures.

(** C6, as the code has it.  When the data service answers for a symbol of
    the watchlist, fetching its closes raises the not-enough-bars
    [RuntimeError] exactly when fewer than [long_window] closes came back.
    The exception is caught nowhere: [run_once] raises it, the symbols behind
    it in the watchlist are not evaluated, no order is submitted and no state
    is saved. *)
Theorem not_enough_bars_ends_cycle {W : Type} `{bot.Alpaca W} (settings : bot.Settings)
    (today : Z) (state : bot.State) (m m1 m2 : bot.machine W) (cash : Q)
    (pre post : list string) (sym : string) (acc : list bot.Ranked)
    (closes : list Q) (w : W) :
  bot.watchlist settings = pre ++ sym :: post ->
  bot.call bot.get_account m = (inr cash, m1) ->
  bot.for_in (bot.rank_body (bot.short_window settings) (bot.long_window settings)
                (bot.data_feed settings)) pre [] m1 = (inr acc, m2) ->
  bot.get_stock_bars sym (bot.data_feed settings) (bot.world m2) = (inr closes, w) ->
  let need := bot.long_window settings in
  let got := Z.of_nat (length closes) in
  let failure := bot.RuntimeError (bot.NotEnoughBars sym need got) in
  (fst (bot.get_last_n_closes sym need (bot.data_feed settings) m2) = inl failure <->
   (got < need)%Z) /\
  ((need <= got)%Z ->
     fst (bot.get_last_n_closes sym need (bot.data_feed settings) m2) =
       inr (bot.slice_from (- need) closes)) /\
  ((got < need)%Z ->
     bot.run_once settings today state m =
       (inl failure, {| bot.world := w; bot.orders := bot.orders m;
                        bot.saved := bot.saved m |})).
Proof.
  intros Hlist Hacc Hpre Hfetch need got failure.
  pose proof (get_last_n_closes_fetched sym need (bot.data_feed settings) m2 closes w Hfetch)
    as Hclose.
  fold got in Hclose. split; [| split].
  - rewrite Hclose. simpl.
    destruct (Z.ltb_spec got need) as [Hlt | Hge].
    + split; [intros _; exact Hlt | reflexivity].
    + split; [discriminate | lia].
  - intros Hge. rewrite Hclose. simpl.
    destruct (Z.ltb_spec got need); [lia | reflexivity].
  - intros Hlt.
    assert (Hraise : bot.get_last_n_closes sym need (bot.data_feed settings) m2 =
              (inl failure, with_world m2 w)).
    { rewrite Hclose. destruct (Z.ltb_spec got need); [reflexivity | lia]. }
    destruct (run_once_ranking_raises settings today state _ _ _ _ _ _ _ _ _ _
                Hlist Hacc Hpre Hraise) as (-> & Ho & Hs).
    unfold with_world in *. simpl in *. now rewrite Ho, Hs.
Qed.

Lemma not_enough_bars_ends_cycle_witness :
  bot.run_once (paper.settings ["T"; "PFE"]) 100 paper.empty_state
    (paper.start paper.short_history) =
  (inl (bot.RuntimeError (bot.NotEnoughBars "PFE" 3 (Z.of_nat (length [12%Q])))),
   {| bot.world := paper.short_history; bot.orders := []; bot.saved := [] |}).
Proof.
  refine (proj2 (proj2 (not_enough_bars_ends_cycle (paper.settings ["T"; "PFE"]) 100
            paper.empty_state
            (paper.start paper.short_history) (paper.start paper.short_history)
            (paper.start paper.short_history) 10000
            ["T"] [] "PFE" [("T", -24 # 6, 36 # 2, 66 # 3, 16)%Q] [12%Q]
            paper.short_history eq_refl eq_refl eq_refl eq_refl)) _).
  simpl. lia.
Defined.

(** C6, as the specification has it, fails: one bar exists for PFE and three
    for T, three are needed.  T alone is ranked and traded; with PFE in front
    of it in the watchlist the whole cycle ends in the exception of PFE, and T
    is neither ranked nor traded. *)
Lemma not_enough_bars_counterexample :
  bot.run_once (paper.settings ["T"]) 100 paper.empty_state
    (paper.start paper.short_history) =
  (inr tt,
   {| bot.world := paper.short_history;
      bot.orders := [{| bot.symbol := "T"; bot.qty := 10; bot.side := bot.SELL;
                        bot.time_in_force := bot.DAY |}];
      bot.saved := [bot.set_last_trade_day paper.empty_state "T" (bot.DateStr 100)] |}) /\
  bot.run_once (paper.settings ["PFE"; "T"]) 100 paper.empty_state
    (paper.start paper.short_history) =
  (inl (bot.RuntimeError (bot.NotEnoughBars "PFE" 3 1)),
   {| bot.world := paper.short_history; bot.orders := []; bot.saved := [] |}).
Proof. split; vm_compute; reflexivity. Qed.

Section TradeFacts.
Context {W : Type} `{bot.Alpaca W}.
Implicit Types (m : bot.machine W).

Lemma current_position_qty_absorbs symbol m e w :
  bot.get_open_position symbol (bot.world m) = (inl e, w) ->
  bot.current_position_qty symbol m = (inr 0%Z, with_world m w).
Proof.
  intros Hpos.
  unfold bot.current_position_qty, bot.try_except, bot.bind.
  now rewrite (call_result _ _ _ _ Hpos).
Qed.

Lemma trade_open settings today ranked cash state m w :
  bot.get_clock (bot.world m) = (inr true, w) ->
  bot.trade settings today ranked cash state m =
    bot.bind (bot.for_in (bot.sell_body today) ranked (cash, state))
      (fun vars =>
         bot.bind (bot.for_in (bot.buy_body settings today) ranked vars)
           (fun vars => bot.save_state (snd vars)))
      (with_world m w).
Proof.
  intros Hclock. unfold bot.trade.
  now rewrite (bind_returns _ _ _ _ _ (call_result _ _ _ _ Hclock)).
Qed.

Lemma for_in_saved {S : Type} sd (body : bot.Ranked -> S -> bot.M W S)
    (l : list bot.Ranked) (s : S) m r m' :
  (forall x s, emits sd [bot.ranked_sym x] (body x s)) ->
  bot.for_in body l s m = (r, m') -> bot.saved m' = bot.saved m.
Proof.
  intros Hbody Hrun.
  destruct (emits_for_in sd body l s Hbody m) as (os & _ & Hs & _).
  now rewrite Hrun in Hs.
Qed.
End TradeFacts.

(** C8, as the code has it.  A failure of [get_account], of [get_stock_bars],
    of [get_clock] or of [submit_order] is not handled: [run_once] raises it
    (for [get_stock_bars], after [get_last_n_closes] has turned an [APIError]
    about the SIP subscription or about a 401 into a [RuntimeError]) and
    nothing behind the failing call runs, so no state is saved.  A failure of
    [get_open_position] is caught: [current_position_qty] returns 0 and the
    cycle goes on. *)
Theorem upstream_failures_surface {W : Type} `{bot.Alpaca W} (settings : bot.Settings)
    (today : Z) (state : bot.State) (m : bot.machine W) :
  (forall symbol m' e w,
     bot.get_open_position symbol (bot.world m') = (inl e, w) ->
     bot.current_position_qty symbol m' = (inr 0%Z, with_world m' w)) /\
  (forall e w,
     bot.get_account (bot.world m) = (inl e, w) ->
     bot.run_once settings today state m = (inl (bot.Upstream e), with_world m w)) /\
  (forall cash m1 pre sym post acc m2 e w,
     bot.watchlist settings = pre ++ sym :: post ->
     bot.call bot.get_account m = (inr cash, m1) ->
     bot.for_in (bot.rank_body (bot.short_window settings) (bot.long_window settings)
                   (bot.data_feed settings)) pre [] m1 = (inr acc, m2) ->
     bot.get_stock_bars sym (bot.data_feed settings) (bot.world m2) = (inl e, w) ->
     bot.run_once settings today state m = (inl (reraised e), with_world m w)) /\
  (forall cash m1 ranked m2,
     bot.call bot.get_account m = (inr cash, m1) ->
     bot.rank_symbols (bot.watchlist settings) (bot.short_window settings)
       (bot.long_window settings) (bot.data_feed settings) m1 = (inr ranked, m2) ->
     (forall e w,
        bot.get_clock (bot.world m2) = (inl e, w) ->
        bot.run_once settings today state m = (inl (bot.Upstream e), with_world m w)) /\
     (forall w pre sym trend short_avg long_avg latest post cash' state' m3 q m4 e w',
        bot.get_clock (bot.world m2) = (inr true, w) ->
        ranked = pre ++ (sym, trend, short_avg, long_avg, latest) :: post ->
        bot.for_in (bot.sell_body today) pre (cash, state) (with_world m2 w) =
          (inr (cash', state'), m3) ->
        bot.current_position_qty sym m3 = (inr q, m4) ->
        (0 < q)%Z -> (short_avg < long_avg)%Q ->
        let order := {| bot.symbol := sym; bot.qty := q; bot.side := bot.SELL;
                        bot.time_in_force := bot.DAY |} in
        bot.submit_order order (bot.world m4) = (inl e, w') ->
        bot.run_once settings today state m =
          (inl (bot.Upstream e),
           {| bot.world := w'; bot.orders := bot.orders m4 ++ [order];
              bot.saved := bot.saved m |})) /\
     (forall w vars m3 pre sym trend short_avg long_avg price post cash' state' m4
             waited q m5 e w',
        bot.get_clock (bot.world m2) = (inr true, w) ->
        bot.for_in (bot.sell_body today) ranked (cash, state) (with_world m2 w) =
          (inr vars, m3) ->
        ranked = pre ++ (sym, trend, short_avg, long_avg, price) :: post ->
        bot.for_in (bot.buy_body settings today) pre vars m3 = (inr (cash', state'), m4) ->
        (0 < trend)%Q ->
        bot.days_since (bot.last_trade_day state' !! sym) today = inr waited ->
        bot.current_position_qty sym m4 = (inr q, m5) ->
        (bot.wait_days settings <= waited)%Z ->
        (q + bot.shares_per_trade settings <= bot.max_shares settings)%Z ->
        (inject_Z (bot.shares_per_trade settings) * price <= cash')%Q ->
        let order := {| bot.symbol := sym; bot.qty := bot.shares_per_trade settings;
                        bot.side := bot.BUY; bot.time_in_force := bot.DAY |} in
        bot.submit_order order (bot.world m5) = (inl e, w') ->
        bot.run_once settings today state m =
          (inl (bot.Upstream e),
           {| bot.world := w'; bot.orders := bot.orders m5 ++ [order];
              bot.saved := bot.saved m |}))).
Proof.
  split; [intros symbol m' e w; apply current_position_qty_absorbs |].
  split.
  { intros e w Hacc. unfold bot.run_once. apply bind_raises.
    now rewrite (call_result _ _ _ _ Hacc). }
  split.
  { intros cash m1 pre sym post acc m2 e w Hlist Hacc Hpre Hfetch.
    destruct (run_once_ranking_raises settings today state _ _ _ _ _ _ _ _ _ _
                Hlist Hacc Hpre (get_last_n_closes_failed _ _ _ _ _ _ Hfetch))
      as (-> & Ho & Hs).
    unfold with_world in *. simpl in *. now rewrite Ho, Hs. }
  intros cash m1 ranked m2 Hacc Hrank.
  destruct (run_once_trade settings today state _ _ _ _ _ Hacc Hrank) as (-> & Ho & Hs).
  split; [| split].
  - intros e w Hclock. unfold bot.trade.
    rewrite (bind_raises _ _ _ _ _ (call_result _ _ _ _ Hclock)).
    unfold with_world. now rewrite Ho, Hs.
  - intros w pre sym trend short_avg long_avg latest post cash' state' m3 q m4 e w'
      Hclock -> Hpre Hq Hpos Hlt order Hsubmit.
    rewrite (trade_open _ _ _ _ _ _ _ Hclock).
    pose proof (sell_body_sells today sym trend _ _ latest cash' state' m3 q m4 Hq Hpos Hlt)
      as Hbody.
    cbv zeta in Hbody. fold order in Hbody. rewrite Hsubmit in Hbody. cbn [fst snd] in Hbody.
    erewrite bind_raises by (eapply for_in_raises; [exact Hpre | exact Hbody]).
    pose proof (for_in_saved _ _ _ _ _ _ _ (emits_sell_body today) Hpre) as Hs3.
    destruct (quiet_current_position_qty sym m3) as [_ Hs4]. rewrite Hq in Hs4.
    simpl in *. now rewrite Hs4, Hs3, Hs.
  - intros w vars m3 pre sym trend short_avg long_avg price post cash' state' m4
      waited q m5 e w' Hclock Hsells -> Hpre Hpos Hwaited Hq Hw Hu Hc order Hsubmit.
    rewrite (trade_open _ _ _ _ _ _ _ Hclock).
    rewrite (bind_returns _ _ _ _ _ Hsells).
    pose proof (buy_body_buys settings today sym trend short_avg long_avg price cash' state'
                  m4 waited q m5 Hpos Hwaited Hq Hw Hu Hc) as Hbody.
    cbv zeta in Hbody. fold order in Hbody. rewrite Hsubmit in Hbody. cbn [fst snd] in Hbody.
    erewrite bind_raises by (eapply for_in_raises; [exact Hpre | exact Hbody]).
    pose proof (for_in_saved _ _ _ _ _ _ _ (emits_sell_body today) Hsells) as Hs3.
    pose proof (for_in_saved _ _ _ _ _ _ _ (emits_buy_body settings today) Hpre) as Hs4.
    destruct (quiet_current_position_qty sym m4) as [_ Hs5]. rewrite Hq in Hs5.
    simpl in *. now rewrite Hs5, Hs4, Hs3, Hs.
Qed.

(** A broker that rejects every order. *)
Lemma upstream_failures_surface_witness :
  bot.current_position_qty "PFE" (paper.start (paper.rising_and_falling true)) =
    (inr 0%Z, paper.start (paper.rising_and_falling true)) /\
  bot.run_once (paper.settings ["PFE"; "T"]) 100 paper.empty_state
    (paper.start paper.rejecting) =
  (inl (bot.Upstream (bot.APIError "order rejected")),
   {| bot.world := paper.rejecting;
      bot.orders := [] ++ [{| bot.symbol := "T"; bot.qty := 10; bot.side := bot.SELL;
                              bot.time_in_force := bot.DAY |}];
      bot.saved := [] |}).
Proof.
  split.
  - exact (proj1 (upstream_failures_surface (paper.settings ["PFE"; "T"]) 100
                    paper.empty_state (paper.start (paper.rising_and_falling true)))
             "PFE" (paper.start (paper.rising_and_falling true))
             (bot.APIError "position does not exist") (paper.rising_and_falling true)
             eq_refl).
  - destruct (upstream_failures_surface (paper.settings ["PFE"; "T"]) 100
                paper.empty_state (paper.start paper.rejecting))
      as (_ & _ & _ & Htrade).
    destruct (Htrade 10000%Q (paper.start paper.rejecting)
                [("PFE", 3 # 6, 23 # 2, 33 # 3, 12); ("T", -24 # 6, 36 # 2, 66 # 3, 16)]%Q
                (paper.start paper.rejecting) eq_refl eq_refl) as (_ & Hsell & _).
    exact (Hsell paper.rejecting [("PFE", 3 # 6, 23 # 2, 33 # 3, 12)%Q]
             "T" (-24 # 6)%Q (36 # 2)%Q (66 # 3)%Q 16%Q []
             10000%Q paper.empty_state (paper.start paper.rejecting)
             10%Z (paper.start paper.rejecting)
             (bot.APIError "order rejected") paper.rejecting
             eq_refl eq_refl eq_refl eq_refl eq_refl eq_refl eq_refl).
Defined.

(** C8, as the specification has it, fails: Alpaca raises for the position
    of PFE, [current_position_qty] answers 0 in its place, and the cycle runs
    to its end and buys PFE. *)
Lemma absorbed_failure_counterexample :
  fst (bot.get_open_position "PFE" (paper.rising_and_falling true)) =
    inl (bot.APIError "position does not exist") /\
  bot.current_position_qty "PFE" (paper.start (paper.rising_and_falling true)) =
    (inr 0%Z, paper.start (paper.rising_and_falling true)) /\
  bot.run_once (paper.settings ["PFE"]) 100 paper.empty_state
    (paper.start (paper.rising_and_falling true)) =
  (inr tt,
   {| bot.world := paper.rising_and_falling true;
      bot.orders := [{| bot.symbol := "PFE"; bot.qty := 50; bot.side := bot.BUY;
                        bot.time_in_force := bot.DAY |}];
      bot.saved := [bot.set_last_trade_day paper.empty_state "PFE" (bot.DateStr 100)] |}).
Proof. repeat split; vm_compute; reflexivity. Qed.

(** * More properties of the code *)

(** ** More on the binary search tree *)

Section BstMore.
Context {V : Type}.
Implicit Types (node l r : bst.BSTNode V) (kv : Q * V) (kvs : list (Q * V)).

Lemma rightmost_head k v r (rest : list (Q * V)) :
  head (bst.nodes_desc r ++ (k, v) :: rest) = Some (bst.rightmost k v r).
Proof.
  revert k v rest. induction r as [| k' v' l' _ r' IH]; intros k v rest; simpl.
  - reflexivity.
  - rewrite <- app_assoc. simpl. apply IH.
Qed.

Lemma get_max_head (t : bst.BST V) :
  bst.get_max t = head (bst.nodes_desc (bst._root t)).
Proof.
  unfold bst.get_max. destruct (bst._root t) as [| k v l r]; simpl.
  - reflexivity.
  - now rewrite rightmost_head.
Qed.

Lemma count_less_insert node k v (threshold : Q) :
  bst._count_less_rec (bst._insert_rec node k v) threshold =
  (bst._count_less_rec node threshold + if Qlt_le_dec k threshold then 1 else 0)%Z.
Proof.
  induction node as [| k0 v0 l IHl r IHr]; simpl.
  - destruct (Qlt_le_dec k threshold); lia.
  - destruct (Qlt_le_dec k0 k); simpl; rewrite ?IHl, ?IHr;
      destruct (Qlt_le_dec k0 threshold), (Qlt_le_dec k threshold); lia.
Qed.

Lemma count_less_bounds node (threshold threshold' : Q) :
  (threshold <= threshold')%Q ->
  (0 <= bst._count_less_rec node threshold <= bst._count_less_rec node threshold')%Z /\
  (bst._count_less_rec node threshold' <= Z.of_nat (length (bst.nodes_desc node)))%Z.
Proof.
  intros Hle. induction node as [| k0 v0 l IHl r IHr]; simpl.
  - lia.
  - rewrite length_app. simpl.
    destruct (Qlt_le_dec k0 threshold), (Qlt_le_dec k0 threshold');
      try lia; exfalso; lra.
Qed.
End BstMore.

(** X1. [get_max] answers [None] exactly when nothing was inserted.
    Otherwise it answers one of the inserted pairs, whose key no inserted key
    exceeds; among several pairs of the greatest key it is the one inserted
    first. *)
Theorem get_max_is_greatest {V : Type} (kvs : list (Q * V)) :
  let t := bst.insert_all bst.init kvs in
  (bst.get_max t = None <-> kvs = []) /\
  bst.get_max t = head (spec.stable_sort_desc fst kvs) /\
  (forall k v, bst.get_max t = Some (k, v) ->
     (k, v) ∈ kvs /\ Forall (fun kv => (fst kv <= k)%Q) kvs).
Proof.
  intros t. subst t.
  rewrite get_max_head, nodes_insert_all.
  pose proof (stable_sort_desc_perm fst kvs) as Hperm.
  pose proof (stable_sort_desc_descending fst kvs) as Hdesc.
  split; [| split].
  - split.
    + intros Hnone. apply head_None in Hnone. rewrite Hnone in Hperm.
      symmetry in Hperm. now apply Permutation_nil_r in Hperm.
    + now intros ->.
  - reflexivity.
  - intros k v Hhead.
    destruct (spec.stable_sort_desc fst kvs) as [| kv rest]; [discriminate |].
    injection Hhead as ->. split.
    + rewrite <- Hperm. apply list_elem_of_here.
    + rewrite <- Hperm. constructor; [apply Qle_refl |].
      apply StronglySorted_inv in Hdesc. exact (proj2 Hdesc).
Qed.

Lemma get_max_is_greatest_witness :
  (3%Q, "b") ∈ [(1, "a"); (3, "b"); (1, "c"); (2, "d"); (3, "e")]%Q /\
  Forall (fun kv : Q * string => (fst kv <= 3)%Q)
    [(1, "a"); (3, "b"); (1, "c"); (2, "d"); (3, "e")]%Q.
Proof.
  exact (proj2 (proj2 (get_max_is_greatest
                         [(1, "a"); (3, "b"); (1, "c"); (2, "d"); (3, "e")]%Q))
           3%Q "b" eq_refl).
Defined.

(** X2. On every tree, [get_max] answers the entry that
    [get_ranked_descending] lists first. *)
Theorem get_max_heads_ranking {V : Type} (t : bst.BST V) :
  option_map snd (bst.get_max t) = head (bst.get_ranked_descending t).
Proof.
  rewrite get_max_head, get_ranked_descending_nodes.
  now destruct (bst.nodes_desc (bst._root t)).
Qed.

(** X3. An insertion raises [count_less_than] by one for the thresholds
    above the new key and leaves it as it was for the others. *)
Theorem count_less_than_insert {V : Type} (t : bst.BST V) (k : Q) (v : V) (threshold : Q) :
  bst.count_less_than (bst.insert t k v) threshold =
  (bst.count_less_than t threshold + if decide (k < threshold)%Q then 1 else 0)%Z.
Proof.
  unfold bst.count_less_than, bst.insert. simpl.
  rewrite count_less_insert. unfold decide, Qlt_decision.
  now destruct (Qlt_le_dec k threshold).
Qed.

(** X4. [count_less_than] grows with the threshold and lies between 0 and
    the number of entries of the tree. *)
Theorem count_less_than_monotone {V : Type} (t : bst.BST V) (threshold threshold' : Q) :
  (threshold <= threshold')%Q ->
  (0 <= bst.count_less_than t threshold <= bst.count_less_than t threshold')%Z /\
  (bst.count_less_than t threshold' <= Z.of_nat (length (bst.get_ranked_descending t)))%Z.
Proof.
  intros Hle. unfold bst.count_less_than.
  rewrite get_ranked_descending_nodes, length_map.
  now apply count_less_bounds.
Qed.

Lemma count_less_than_monotone_witness :
  (0 <= bst.count_less_than (bst.insert_all bst.init [(1, "a"); (3, "b"); (2, "c")]%Q) 2
     <= bst.count_less_than (bst.insert_all bst.init [(1, "a"); (3, "b"); (2, "c")]%Q) 3)%Z.
Proof.
  refine (proj1 (count_less_than_monotone
                   (bst.insert_all bst.init [(1, "a"); (3, "b"); (2, "c")]%Q) 2 3 _)).
  vm_compute. discriminate.
Defined.

(** X5. [insert] keeps the search order of a tree: in the tree after the
    insertion, as in the tree before it, the keys to the right of a node are
    greater than the node's key and the keys to its left are not. *)
Theorem insert_keeps_search_order {V : Type} (t : bst.BST V) (k : Q) (v : V) :
  bst.ordered (bst._root t) -> bst.ordered (bst._root (bst.insert t k v)).
Proof. intros Ho. simpl. now apply ordered_insert. Qed.

Lemma insert_keeps_search_order_witness :
  bst.ordered (bst._root (bst.insert (bst.insert bst.init 2 "a") 1 "b")).
Proof.
  apply insert_keeps_search_order.
  simpl. repeat split; constructor.
Defined.

(** X6. On every tree, [insert] adds the new value to the list of
    [get_ranked_descending] and neither drops nor repeats another one. *)
Theorem insert_adds_one_entry {V : Type} (t : bst.BST V) (k : Q) (v : V) :
  bst.get_ranked_descending (bst.insert t k v) ≡ₚ v :: bst.get_ranked_descending t.
Proof.
  rewrite !get_ranked_descending_nodes. simpl.
  change (v :: map snd (bst.nodes_desc (bst._root t)))
    with (map snd ((k, v) :: bst.nodes_desc (bst._root t))).
  apply Permutation_map, nodes_insert_perm.
Qed.

(** ** Slices, averages and truncation *)

Section Numbers.
Implicit Types (l : list Q).

Lemma slice_from_last {A : Type} (n : Z) (l : list A) :
  (0 < n <= Z.of_nat (length l))%Z ->
  bot.slice_from (- n) l = drop (length l - Z.to_nat n) l.
Proof.
  intros Hn. unfold bot.slice_from.
  destruct (Z.ltb_spec (- n) 0); [| lia].
  f_equal. lia.
Qed.

Lemma slice_from_nonpositive {A : Type} (n : Z) (l : list A) :
  (n <= 0)%Z -> bot.slice_from (- n) l = drop (Z.to_nat (- n)) l.
Proof.
  intros Hn. unfold bot.slice_from.
  destruct (Z.ltb_spec (- n) 0); [lia |].
  destruct (Z.le_gt_cases (- n) (Z.of_nat (length l))).
  - now rewrite Z.min_l.
  - rewrite Z.min_r by lia. rewrite Nat2Z.id.
    rewrite !drop_ge; [reflexivity | lia | lia].
Qed.

Lemma slice_from_all {A : Type} (n : Z) (l : list A) :
  (n = 0 \/ Z.of_nat (length l) <= n)%Z -> bot.slice_from (- n) l = l.
Proof.
  intros Hn. unfold bot.slice_from.
  destruct (Z.ltb_spec (- n) 0).
  - replace (Z.to_nat _) with 0%nat by lia. reflexivity.
  - replace (Z.to_nat _) with 0%nat by lia. reflexivity.
Qed.

End Numbers.

(** X7. When the data service has at least [n] closes for a symbol and [n]
    is positive, [get_last_n_closes] returns exactly [n] closes, and they are
    the end of the history. *)
Theorem get_last_n_closes_is_suffix {W : Type} `{bot.Alpaca W} (symbol feed : string)
    (n : Z) (m : bot.machine W) (closes : list Q) (w : W) :
  bot.get_stock_bars symbol feed (bot.world m) = (inr closes, w) ->
  (0 < n <= Z.of_nat (length closes))%Z ->
  exists older last_n,
    fst (bot.get_last_n_closes symbol n feed m) = inr last_n /\
    closes = older ++ last_n /\
    Z.of_nat (length last_n) = n.
Proof.
  intros Hfetch Hn.
  rewrite (get_last_n_closes_fetched _ _ _ _ _ _ Hfetch). simpl.
  destruct (Z.ltb_spec (Z.of_nat (length closes)) n); [lia |].
  exists (take (length closes - Z.to_nat n) closes),
         (drop (length closes - Z.to_nat n) closes).
  rewrite slice_from_last by exact Hn.
  split; [reflexivity |]. split; [now rewrite take_drop |].
  rewrite length_drop. lia.
Qed.

Lemma get_last_n_closes_is_suffix_witness :
  exists older last_n,
    fst (bot.get_last_n_closes "T" 2 "iex" (paper.start (paper.rising_and_falling true))) =
      inr last_n /\
    [30; 20; 16]%Q = older ++ last_n /\
    Z.of_nat (length last_n) = 2%Z.
Proof.
  refine (get_last_n_closes_is_suffix "T" "iex" 2
            (paper.start (paper.rising_and_falling true)) [30; 20; 16]%Q
            (paper.rising_and_falling true) eq_refl _).
  simpl. lia.
Defined.

(** X8. A window that is not positive never fails for lack of bars:
    [get_last_n_closes] with [n = 0] returns the whole history that the data
    service gave, and with [n < 0] the history without its first [-n]
    closes. *)
Theorem get_last_n_closes_nonpositive {W : Type} `{bot.Alpaca W} (symbol feed : string)
    (n : Z) (m : bot.machine W) (closes : list Q) (w : W) :
  bot.get_stock_bars symbol feed (bot.world m) = (inr closes, w) ->
  (n <= 0)%Z ->
  fst (bot.get_last_n_closes symbol n feed m) = inr (drop (Z.to_nat (- n)) closes) /\
  (n = 0%Z -> fst (bot.get_last_n_closes symbol n feed m) = inr closes).
Proof.
  intros Hfetch Hn.
  rewrite (get_last_n_closes_fetched _ _ _ _ _ _ Hfetch). simpl.
  destruct (Z.ltb_spec (Z.of_nat (length closes)) n); [lia |].
  rewrite slice_from_nonpositive by exact Hn.
  split; [reflexivity |]. now intros ->.
Qed.

Lemma get_last_n_closes_nonpositive_witness :
  fst (bot.get_last_n_closes "T" 0 "iex" (paper.start (paper.rising_and_falling true))) =
    inr [30; 20; 16]%Q.
Proof.
  refine (proj2 (get_last_n_closes_nonpositive "T" "iex" 0
                   (paper.start (paper.rising_and_falling true)) [30; 20; 16]%Q
                   (paper.rising_and_falling true) eq_refl _) eq_refl).
  lia.
Defined.





(** ** The ranking *)

Section Ranking.
Context {W : Type} `{bot.Alpaca W}.
Implicit Types (m : bot.machine W).

Lemma get_last_n_closes_length symbol n feed m l m' :
  bot.get_last_n_closes symbol n feed m = (inr l, m') ->
  (0 < n)%Z -> Z.of_nat (length l) = n.
Proof.
  intros Hrun Hn.
  destruct (bot.get_stock_bars symbol feed (bot.world m)) as [[e | closes] w] eqn:Hfetch.
  - rewrite (get_last_n_closes_failed _ _ _ _ _ _ Hfetch) in Hrun. discriminate.
  - rewrite (get_last_n_closes_fetched _ _ _ _ _ _ Hfetch) in Hrun.
    destruct (Z.ltb_spec (Z.of_nat (length closes)) n); [discriminate |].
    injection Hrun as <- _.
    rewrite slice_from_last by lia. rewrite length_drop. lia.
Qed.

Lemma rank_body_row short_window long_window feed sym (acc : list bot.Ranked) m rows m' :
  bot.rank_body short_window long_window feed sym acc m = (inr rows, m') ->
  exists closes x,
    rows = acc ++ [x] /\ bot.ranked_sym x = sym /\
    scored short_window closes x /\
    ((0 < long_window)%Z -> Z.of_nat (length closes) = long_window).
Proof.
  unfold bot.rank_body, bot.bind at 1.
  destruct (bot.get_last_n_closes sym long_window feed m) as [[e | closes] m1] eqn:Hfetch;
    [discriminate |].
  unfold bot.bind, bot.lift, bot.ret.
  destruct (bot.sma (bot.slice_from (- short_window) closes)) as [e | short_avg] eqn:Hshort;
    [discriminate |].
  destruct (bot.sma closes) as [e | long_avg] eqn:Hlong; [discriminate |].
  unfold bot.index_last.
  destruct (last closes) as [latest |] eqn:Hlast; [| discriminate].
  intros [= <- _].
  exists closes, (sym, (short_avg - long_avg)%Q, short_avg, long_avg, latest).
  split; [reflexivity |]. split; [reflexivity |]. split.
  - unfold scored. simpl. now rewrite Hshort, Hlong, Hlast.
  - intros Hpos. exact (get_last_n_closes_length _ _ _ _ _ _ Hfetch Hpos).
Qed.

Lemma rank_loop_rows short_window long_window feed symbols (acc : list bot.Ranked) m rows m' :
  bot.for_in (bot.rank_body short_window long_window feed) symbols acc m = (inr rows, m') ->
  exists new,
    rows = acc ++ new /\ map bot.ranked_sym new = symbols /\
    Forall (fun x => exists closes,
              scored short_window closes x /\
              ((0 < long_window)%Z -> Z.of_nat (length closes) = long_window)) new.
Proof.
  revert acc m. induction symbols as [| sym symbols IH]; intros acc m; simpl.
  - unfold bot.ret. intros [= <- _]. exists []. rewrite app_nil_r. repeat split. constructor.
  - unfold bot.bind.
    destruct (bot.rank_body short_window long_window feed sym acc m)
      as [[e | rows1] m1] eqn:Hbody; [discriminate |].
    intros Hrest.
    destruct (rank_body_row _ _ _ _ _ _ _ _ Hbody) as (closes & x & -> & Hsym & Hx & Hlen).
    destruct (IH _ _ Hrest) as (new & -> & Hsyms & Hall).
    exists (x :: new). rewrite <- app_assoc. simpl.
    split; [reflexivity |]. split; [now rewrite Hsym, Hsyms |].
    constructor; [| exact Hall]. now exists closes.
Qed.
End Ranking.

Lemma rank_symbols_scores {W : Type} `{bot.Alpaca W} (symbols : list string)
    (short_window long_window : Z) (feed : string) (m m' : bot.machine W)
    (ranked : list bot.Ranked) :
  bot.rank_symbols symbols short_window long_window feed m = (inr ranked, m') ->
  exists rows,
    map bot.ranked_sym rows = symbols /\
    ranked = spec.stable_sort_desc bot.ranked_trend rows /\
    Forall (fun x => exists closes,
              scored short_window closes x /\
              ((0 < long_window)%Z -> Z.of_nat (length closes) = long_window)) ranked.
Proof.
  unfold bot.rank_symbols, bot.bind, bot.ret.
  destruct (bot.for_in _ symbols [] m) as [[e | rows] m1] eqn:Hloop; [discriminate |].
  intros [= <- _].
  destruct (rank_loop_rows _ _ _ _ _ _ _ _ Hloop) as (new & -> & Hsyms & Hall).
  exists new. simpl. split; [exact Hsyms |].
  split; [apply sort_reverse_stable |].
  rewrite sort_reverse_stable, stable_sort_desc_perm. exact Hall.
Qed.

Section RankingFetches.
Context {W : Type} `{bot.Alpaca W}.
Implicit Types (m : bot.machine W).

Lemma rank_body_fetched short_window long_window feed sym (acc : list bot.Ranked) m rows m' :
  bot.rank_body short_window long_window feed sym acc m = (inr rows, m') ->
  exists history x,
    bot.get_stock_bars sym feed (bot.world m) = (inr history, bot.world m') /\
    (long_window <= Z.of_nat (length history))%Z /\
    rows = acc ++ [x] /\ bot.ranked_sym x = sym /\
    scored short_window (bot.slice_from (- long_window) history) x.
Proof.
  unfold bot.rank_body, bot.bind at 1.
  destruct (bot.get_stock_bars sym feed (bot.world m)) as [[e | history] w] eqn:Hfetch.
  { rewrite (get_last_n_closes_failed _ _ _ _ _ _ Hfetch). discriminate. }
  rewrite (get_last_n_closes_fetched _ _ _ _ _ _ Hfetch).
  destruct (Z.ltb_spec (Z.of_nat (length history)) long_window) as [Hlt | Hge];
    [discriminate |].
  unfold bot.bind, bot.lift, bot.ret.
  destruct (bot.sma (bot.slice_from (- short_window) (bot.slice_from (- long_window) history)))
    as [e | short_avg] eqn:Hshort; [discriminate |].
  destruct (bot.sma (bot.slice_from (- long_window) history)) as [e | long_avg] eqn:Hlong;
    [discriminate |].
  unfold bot.index_last.
  destruct (last (bot.slice_from (- long_window) history)) as [latest |] eqn:Hlast;
    [| discriminate].
  intros [= <- <-]. simpl.
  exists history, (sym, (short_avg - long_avg)%Q, short_avg, long_avg, latest).
  split; [reflexivity |]. split; [exact Hge |].
  split; [reflexivity |]. split; [reflexivity |].
  unfold scored. simpl. now rewrite Hshort, Hlong, Hlast.
Qed.

Lemma rank_loop_fetched short_window long_window feed symbols (acc : list bot.Ranked)
    m rows m' :
  bot.for_in (bot.rank_body short_window long_window feed) symbols acc m = (inr rows, m') ->
  exists new,
    rows = acc ++ new /\
    fetched_rows short_window long_window feed symbols (bot.world m) new (bot.world m').
Proof.
  revert acc m. induction symbols as [| sym symbols IH]; intros acc m; simpl.
  - unfold bot.ret. intros [= <- <-]. exists []. now rewrite app_nil_r.
  - unfold bot.bind.
    destruct (bot.rank_body short_window long_window feed sym acc m)
      as [[e | rows1] m1] eqn:Hbody; [discriminate |].
    intros Hrest.
    destruct (rank_body_fetched _ _ _ _ _ _ _ _ Hbody)
      as (history & x & Hfetch & Hlen & -> & Hsym & Hx).
    destruct (IH _ _ Hrest) as (new & -> & Hnew).
    exists (x :: new). rewrite <- app_assoc. simpl.
    split; [reflexivity |].
    exists history, (bot.world m1).
    split; [exact Hfetch |]. split; [exact Hlen |]. split; [exact Hsym |].
    split; [exact Hx | exact Hnew].
Qed.

Lemma fetched_rows_scored short_window long_window feed symbols (w w' : W)
    (rows : list bot.Ranked) :
  fetched_rows short_window long_window feed symbols w rows w' ->
  map bot.ranked_sym rows = symbols /\
  Forall (fun x => exists closes,
            scored short_window closes x /\
            ((0 < long_window)%Z -> Z.of_nat (length closes) = long_window)) rows.
Proof.
  revert w rows. induction symbols as [| sym symbols IH]; intros w [| x rows]; simpl;
    try tauto.
  - intros _. split; [reflexivity | constructor].
  - intros (history & w1 & _ & Hlen & Hsym & Hx & Hrest).
    destruct (IH _ _ Hrest) as [Hsyms Hall].
    split; [now rewrite Hsym, Hsyms |].
    constructor; [| exact Hall].
    exists (bot.slice_from (- long_window) history). split; [exact Hx |].
    intros Hpos. rewrite slice_from_last by lia. rewrite length_drop. lia.
Qed.
End RankingFetches.

(** X11. When [rank_symbols] returns, its ranking has one row for every
    symbol of the watchlist: the rows, taken in watchlist order, sorted by
    trend in descending order with equal trends left in watchlist order.  The
    row of a symbol is made from the closes that [get_stock_bars] answered
    for that symbol, each fetch in the world that the fetch before it left:
    it holds the two averages of the last [long_window] of these closes,
    their difference as the trend, and the last close.  No order is
    submitted and no state saved on the way. *)
Theorem rank_symbols_rows {W : Type} `{bot.Alpaca W} (symbols : list string)
    (short_window long_window : Z) (feed : string) (m m' : bot.machine W)
    (ranked : list bot.Ranked) :
  bot.rank_symbols symbols short_window long_window feed m = (inr ranked, m') ->
  exists rows,
    fetched_rows short_window long_window feed symbols (bot.world m) rows (bot.world m') /\
    map bot.ranked_sym rows = symbols /\
    ranked = spec.stable_sort_desc bot.ranked_trend rows /\
    Forall (fun x => exists closes,
              scored short_window closes x /\
              ((0 < long_window)%Z -> Z.of_nat (length closes) = long_window)) ranked /\
    bot.orders m' = bot.orders m /\ bot.saved m' = bot.saved m.
Proof.
  intros Hrun.
  destruct (quiet_rank_symbols symbols short_window long_window feed m) as [Ho Hs].
  rewrite Hrun in Ho, Hs. simpl in Ho, Hs.
  revert Hrun. unfold bot.rank_symbols, bot.bind, bot.ret.
  destruct (bot.for_in _ symbols [] m) as [[e | rows] m1] eqn:Hloop; [discriminate |].
  intros [= <- <-].
  destruct (rank_loop_fetched _ _ _ _ _ _ _ _ Hloop) as (new & -> & Hnew).
  destruct (fetched_rows_scored _ _ _ _ _ _ _ Hnew) as [Hsyms Hall].
  exists new. simpl. split; [exact Hnew |]. split; [exact Hsyms |].
  split; [apply sort_reverse_stable |].
  split; [| now split].
  rewrite sort_reverse_stable, stable_sort_desc_perm. exact Hall.
Qed.

Lemma rank_symbols_rows_witness :
  exists rows,
    fetched_rows 2 3 "iex" ["T"; "PFE"] (paper.rising_and_falling true) rows
      (paper.rising_and_falling true) /\
    map bot.ranked_sym rows = ["T"; "PFE"] /\
    [("PFE", 3 # 6, 23 # 2, 33 # 3, 12); ("T", -24 # 6, 36 # 2, 66 # 3, 16)]%Q =
      spec.stable_sort_desc bot.ranked_trend rows.
Proof.
  assert (Hrun : bot.rank_symbols ["T"; "PFE"] 2 3 "iex"
                   (paper.start (paper.rising_and_falling true)) =
                 (inr [("PFE", 3 # 6, 23 # 2, 33 # 3, 12);
                       ("T", -24 # 6, 36 # 2, 66 # 3, 16)]%Q,
                  paper.start (paper.rising_and_falling true))) by reflexivity.
  destruct (rank_symbols_rows _ _ _ _ _ _ _ Hrun) as (rows & Hrows & Hsyms & Hsort & _).
  exists rows. split; [exact Hrows |]. split; [exact Hsyms | exact Hsort].
Defined.

(** ** The log of a cycle *)

Section Log.
Context {W : Type} `{bot.Alpaca W}.
Implicit Types (m : bot.machine W) (x : bot.Ranked) (o : bot.MarketOrderRequest).

(** What holds before every round of a loop, and after the loop when it
    returns; what holds of the machine when it raises. *)
Lemma for_in_invariant {A S : Type} (P : S -> bot.machine W -> Prop)
    (Q : bot.machine W -> Prop) (body : A -> S -> bot.M W S) (l : list A) :
  (forall a s m, a ∈ l -> P s m ->
     match body a s m with (inr s', m') => P s' m' | (inl _, m') => Q m' end) ->
  forall s m, P s m ->
    match bot.for_in body l s m with (inr s', m') => P s' m' | (inl _, m') => Q m' end.
Proof.
  induction l as [| a l IH]; intros Hbody s m HP; simpl.
  - exact HP.
  - unfold bot.bind.
    pose proof (Hbody a s m (list_elem_of_here _ _) HP) as Hstep.
    destruct (body a s m) as [[e | s'] m']; [exact Hstep |].
    apply IH; [| exact Hstep].
    intros a' s0 m0 Ha'. apply Hbody. now apply list_elem_of_further.
Qed.

Lemma sell_body_cases today x cash state m :
  exists q m1,
    bot.current_position_qty (bot.ranked_sym x) m = (inr q, m1) /\
    bot.orders m1 = bot.orders m /\ bot.saved m1 = bot.saved m /\
    let order := {| bot.symbol := bot.ranked_sym x; bot.qty := q; bot.side := bot.SELL;
                    bot.time_in_force := bot.DAY |} in
    (((0 < q)%Z /\ (bot.ranked_short_avg x < bot.ranked_long_avg x)%Q /\
      bot.sell_body today x (cash, state) m =
        (match fst (bot.submit_order order (bot.world m1)) with
         | inr _ => inr ((cash + inject_Z q * bot.ranked_latest x)%Q,
                         bot.set_last_trade_day state (bot.ranked_sym x) (bot.DateStr today))
         | inl e => inl (bot.Upstream e)
         end,
         {| bot.world := snd (bot.submit_order order (bot.world m1));
            bot.orders := bot.orders m1 ++ [order];
            bot.saved := bot.saved m1 |})) \/
     bot.sell_body today x (cash, state) m = (inr (cash, state), m1)).
Proof.
  destruct x as [[[[sym trend] short_avg] long_avg] latest].
  cbn [bot.ranked_sym bot.ranked_short_avg bot.ranked_long_avg bot.ranked_latest].
  destruct (current_position_qty_returns sym m) as (q & m1 & Hq & Ho & Hs & _).
  exists q, m1. repeat (split; [assumption |]).
  destruct (Z.ltb_spec 0 q) as [Hpos | Hnpos];
    [destruct (Qlt_le_dec short_avg long_avg) as [Hlt | Hge] |].
  - left. repeat (split; [assumption |]).
    exact (sell_body_sells today sym trend _ _ latest cash state m q m1 Hq Hpos Hlt).
  - right. apply sell_body_keeps with q; [exact Hq |]. intros [_ Hlt]. lra.
  - right. apply sell_body_keeps with q; [exact Hq |]. intros [Hpos _]. lia.
Qed.

Lemma buy_body_cases settings today x cash state m :
  let run := bot.buy_body settings today x (cash, state) m in
  run = (inr (cash, state), m) \/
  (exists e, run = (inl e, m)) \/
  exists waited q m1,
    (0 < bot.ranked_trend x)%Q /\
    bot.days_since (bot.last_trade_day state !! bot.ranked_sym x) today = inr waited /\
    bot.current_position_qty (bot.ranked_sym x) m = (inr q, m1) /\
    bot.orders m1 = bot.orders m /\ bot.saved m1 = bot.saved m /\
    let cost := (inject_Z (bot.shares_per_trade settings) * bot.ranked_latest x)%Q in
    let order := {| bot.symbol := bot.ranked_sym x; bot.qty := bot.shares_per_trade settings;
                    bot.side := bot.BUY; bot.time_in_force := bot.DAY |} in
    (((bot.wait_days settings <= waited)%Z /\
      run =
        (match fst (bot.submit_order order (bot.world m1)) with
         | inr _ => inr ((cash - cost)%Q,
                         bot.set_last_trade_day state (bot.ranked_sym x) (bot.DateStr today))
         | inl e => inl (bot.Upstream e)
         end,
         {| bot.world := snd (bot.submit_order order (bot.world m1));
            bot.orders := bot.orders m1 ++ [order];
            bot.saved := bot.saved m1 |})) \/
     run = (inr (cash, state), m1)).
Proof.
  destruct x as [[[[sym trend] short_avg] long_avg] price].
  cbn [bot.ranked_sym bot.ranked_trend bot.ranked_latest]. cbv zeta.
  destruct (Qlt_le_dec 0 trend) as [Hpos | Hle];
    [| left; now apply buy_body_skips].
  destruct (bot.days_since (bot.last_trade_day state !! sym) today) as [e | waited] eqn:Hw.
  { right. left. exists e. now apply buy_body_unreadable. }
  right. right.
  destruct (current_position_qty_returns sym m) as (q & m1 & Hq & Ho & Hs & _).
  exists waited, q, m1. repeat (split; [assumption || reflexivity |]). cbv zeta.
  destruct (Z.le_gt_cases (bot.wait_days settings) waited) as [H1 | H1];
    [destruct (Z.le_gt_cases (q + bot.shares_per_trade settings) (bot.max_shares settings))
       as [H2 | H2];
     [destruct (Qlt_le_dec cash (inject_Z (bot.shares_per_trade settings) * price))
        as [H3 | H3] | ] |].
  - right. apply buy_body_keeps with waited q; try assumption. intros (_ & _ & Hc). lra.
  - left. split; [exact H1 |].
    exact (buy_body_buys settings today sym trend short_avg long_avg price cash state m
             waited q m1 Hpos Hw Hq H1 H2 H3).
  - right. apply buy_body_keeps with waited q; try assumption. intros (_ & Hu & _). lia.
  - right. apply buy_body_keeps with waited q; try assumption. intros (Hwd & _). lia.
Qed.

Lemma cooldown_marks_none today state : cooldown_marks today state state [].
Proof.
  intros sym. split; [| reflexivity].
  simpl. intros Hin. now apply elem_of_nil in Hin.
Qed.

Lemma cooldown_marks_order today state0 state os o :
  cooldown_marks today state0 state os ->
  cooldown_marks today state0
    (bot.set_last_trade_day state (bot.symbol o) (bot.DateStr today)) (os ++ [o]).
Proof.
  intros Hmarks sym. rewrite map_app. simpl.
  destruct (Hmarks sym) as [Hin Hout].
  destruct (decide (bot.symbol o = sym)) as [-> | Hne].
  - split.
    + intros _. apply lookup_insert_eq.
    + intros Hnot. exfalso. apply Hnot. apply elem_of_app. right. now left.
  - split.
    + intros Hsym. rewrite lookup_insert_ne by exact Hne. apply Hin.
      apply elem_of_app in Hsym as [Hsym | Hsym]; [exact Hsym |].
      apply list_elem_of_singleton in Hsym. congruence.
    + intros Hnot. rewrite lookup_insert_ne by exact Hne. apply Hout.
      intros Hsym. apply Hnot. apply elem_of_app. now left.
Qed.

Lemma order_log_start settings ranked before :
  order_log settings ranked before [] [] before.
Proof.
  repeat split; try constructor. simpl. now rewrite app_nil_r.
Qed.

Lemma order_log_sell settings ranked before sells now x o :
  order_log settings ranked before sells [] now ->
  x ∈ ranked -> sell_order_of x o ->
  order_log settings ranked before (sells ++ [o]) [] (now ++ [o]).
Proof.
  intros (-> & Hsells & _ & _) Hx Ho. repeat split; try constructor.
  - now rewrite !app_nil_r, app_assoc.
  - apply Forall_app. split; [exact Hsells |]. constructor; [| constructor]. now exists x.
Qed.

Lemma order_log_buy settings ranked before sells buys now x o :
  order_log settings ranked before sells buys now ->
  x ∈ ranked -> buy_order_of settings x o ->
  ((1 <= bot.wait_days settings)%Z -> bot.symbol o ∉ map bot.symbol (sells ++ buys)) ->
  order_log settings ranked before sells (buys ++ [o]) (now ++ [o]).
Proof.
  intros (-> & Hsells & Hbuys & Hwait) Hx Ho Hfresh. repeat split.
  - now rewrite <- !app_assoc.
  - exact Hsells.
  - apply Forall_app. split; [exact Hbuys |]. constructor; [| constructor]. now exists x.
  - destruct (Hwait H0) as [Hnodup _]. specialize (Hfresh H0).
    rewrite map_app in Hfresh. apply not_elem_of_app in Hfresh as [_ Hfresh].
    rewrite map_app. apply NoDup_app. split; [exact Hnodup |]. split.
    + intros s Hs Hs'. simpl in Hs'. apply list_elem_of_singleton in Hs'. congruence.
    + apply NoDup_singleton.
  - destruct (Hwait H0) as [_ Hdisj]. specialize (Hfresh H0).
    rewrite map_app in Hfresh. apply not_elem_of_app in Hfresh as [Hfresh _].
    apply Forall_app. split; [exact Hdisj |]. constructor; [exact Hfresh | constructor].
Qed.

(** A symbol marked as traded today has waited zero days. *)
Lemma waited_after_order today state0 state os sym waited :
  cooldown_marks today state0 state os ->
  bot.days_since (bot.last_trade_day state !! sym) today = inr waited ->
  (1 <= waited)%Z ->
  sym ∉ map bot.symbol os.
Proof.
  intros Hmarks Hw Hwaited Hin.
  destruct (Hmarks sym) as [Hmark _]. rewrite (Hmark Hin) in Hw.
  unfold bot.days_since in Hw. simpl in Hw. injection Hw as <-. lia.
Qed.

Lemma sell_loop_log settings today ranked before cash state m :
  bot.orders m = before ->
  match bot.for_in (bot.sell_body today) ranked (cash, state) m with
  | (inr vars, m') =>
      exists sells,
        order_log settings ranked before sells [] (bot.orders m') /\
        cooldown_marks today state (snd vars) sells /\ bot.saved m' = bot.saved m
  | (inl _, m') =>
      exists sells,
        order_log settings ranked before sells [] (bot.orders m') /\
        bot.saved m' = bot.saved m
  end.
Proof.
  intros Hbefore.
  apply (for_in_invariant
           (fun vars m' => exists sells,
              order_log settings ranked before sells [] (bot.orders m') /\
              cooldown_marks today state (snd vars) sells /\ bot.saved m' = bot.saved m)
           (fun m' => exists sells,
              order_log settings ranked before sells [] (bot.orders m') /\
              bot.saved m' = bot.saved m)).
  - intros x [c st] m0 Hx (sells & Hlog & Hmarks & Hsaved). simpl in Hmarks.
    destruct (sell_body_cases today x c st m0) as (q & m1 & _ & Ho & Hs & Hcases).
    cbv zeta in Hcases. destruct Hcases as [(Hpos & Hlt & ->) | ->].
    + set (order := {| bot.symbol := bot.ranked_sym x; bot.qty := q; bot.side := bot.SELL;
                       bot.time_in_force := bot.DAY |}).
      assert (Hlog' : order_log settings ranked before (sells ++ [order]) []
                        (bot.orders m1 ++ [order])).
      { rewrite Ho. apply order_log_sell with x; [exact Hlog | exact Hx |].
        now repeat split. }
      destruct (fst (bot.submit_order order (bot.world m1))) as [e | []]; simpl.
      * exists (sells ++ [order]). split; [exact Hlog' | congruence].
      * exists (sells ++ [order]). split; [exact Hlog' |].
        split; [| congruence].
        exact (cooldown_marks_order today state st sells order Hmarks).
    + exists sells. rewrite Ho, Hs. split; [exact Hlog | split; [exact Hmarks | exact Hsaved]].
  - exists []. split; [rewrite Hbefore; apply order_log_start |].
    split; [apply cooldown_marks_none | reflexivity].
Qed.

Lemma buy_loop_log settings today ranked before sells cash state0 state m :
  order_log settings ranked before sells [] (bot.orders m) ->
  cooldown_marks today state0 state sells ->
  match bot.for_in (bot.buy_body settings today) ranked (cash, state) m with
  | (inr vars, m') =>
      exists buys,
        order_log settings ranked before sells buys (bot.orders m') /\
        cooldown_marks today state0 (snd vars) (sells ++ buys) /\
        bot.saved m' = bot.saved m
  | (inl _, m') =>
      exists buys,
        order_log settings ranked before sells buys (bot.orders m') /\
        bot.saved m' = bot.saved m
  end.
Proof.
  intros Hlog0 Hmarks0.
  apply (for_in_invariant
           (fun vars m' => exists buys,
              order_log settings ranked before sells buys (bot.orders m') /\
              cooldown_marks today state0 (snd vars) (sells ++ buys) /\
              bot.saved m' = bot.saved m)
           (fun m' => exists buys,
              order_log settings ranked before sells buys (bot.orders m') /\
              bot.saved m' = bot.saved m)).
  - intros x [c st] m0 Hx (buys & Hlog & Hmarks & Hsaved). simpl in Hmarks.
    pose proof (buy_body_cases settings today x c st m0) as Hcases.
    cbv zeta in Hcases.
    destruct Hcases as [-> | [[e ->] | (waited & q & m1 & Hpos & Hw & _ & Ho & Hs & Hcases)]].
    + exists buys. split; [exact Hlog | split; [exact Hmarks | exact Hsaved]].
    + exists buys. split; [exact Hlog | exact Hsaved].
    + destruct Hcases as [(Hwait & ->) | ->].
      * set (order := {| bot.symbol := bot.ranked_sym x;
                         bot.qty := bot.shares_per_trade settings;
                         bot.side := bot.BUY; bot.time_in_force := bot.DAY |}).
        assert (Hlog' : order_log settings ranked before sells (buys ++ [order])
                          (bot.orders m1 ++ [order])).
        { rewrite Ho. apply order_log_buy with x; [exact Hlog | exact Hx | |].
          - now repeat split.
          - intros Hone.
            apply (waited_after_order today state0 st (sells ++ buys) _ waited Hmarks Hw).
            lia. }
        destruct (fst (bot.submit_order order (bot.world m1))) as [e | []]; simpl.
        -- exists (buys ++ [order]). split; [exact Hlog' | congruence].
        -- exists (buys ++ [order]). split; [exact Hlog' |].
           split; [| congruence].
           rewrite app_assoc.
           exact (cooldown_marks_order today state0 st (sells ++ buys) order Hmarks).
      * exists buys. rewrite Ho, Hs. split; [exact Hlog | split; [exact Hmarks | exact Hsaved]].
  - exists []. rewrite app_nil_r. split; [exact Hlog0 | split; [exact Hmarks0 | reflexivity]].
Qed.

(** The log of [run_once] from the market-clock check on. *)
Lemma trade_log settings today ranked cash state m :
  exists sells buys,
    order_log settings ranked (bot.orders m) sells buys
      (bot.orders (snd (bot.trade settings today ranked cash state m))) /\
    match fst (bot.trade settings today ranked cash state m) with
    | inr _ =>
        exists st,
          bot.saved (snd (bot.trade settings today ranked cash state m)) =
            bot.saved m ++ [st] /\
          cooldown_marks today state st (sells ++ buys)
    | inl _ =>
        bot.saved (snd (bot.trade settings today ranked cash state m)) = bot.saved m
    end.
Proof.
  remember (bot.trade settings today ranked cash state m) as run eqn:Hrun.
  unfold bot.trade, bot.bind in Hrun.
  destruct (quiet_call bot.get_clock m) as [Ho Hs].
  destruct (bot.call bot.get_clock m) as [[e | is_open] m1]; simpl in Ho, Hs.
  { subst run. exists [], []. simpl.
    split; [rewrite Ho; apply order_log_start | exact Hs]. }
  destruct is_open; simpl in Hrun.
  2: { subst run. exists [], []. simpl. split; [rewrite Ho; apply order_log_start |].
       exists state. split; [now rewrite Hs | apply cooldown_marks_none]. }
  pose proof (sell_loop_log settings today ranked (bot.orders m) cash state m1 Ho) as Hsell.
  destruct (bot.for_in (bot.sell_body today) ranked (cash, state) m1)
    as [[e | [cash1 state1]] m2].
  { subst run. destruct Hsell as (sells & Hlog & Hsaved).
    exists sells, []. simpl. split; [exact Hlog | congruence]. }
  destruct Hsell as (sells & Hlog & Hmarks & Hsaved). simpl in Hmarks.
  pose proof (buy_loop_log settings today ranked (bot.orders m) sells cash1 state state1 m2
                Hlog Hmarks) as Hbuy.
  destruct (bot.for_in (bot.buy_body settings today) ranked (cash1, state1) m2)
    as [[e | [cash2 state2]] m3].
  { subst run. destruct Hbuy as (buys & Hlog' & Hsaved').
    exists sells, buys. simpl. split; [exact Hlog' | congruence]. }
  subst run. destruct Hbuy as (buys & Hlog' & Hmarks' & Hsaved'). simpl in Hmarks'.
  exists sells, buys. simpl. split; [exact Hlog' |].
  exists state2. split; [congruence | exact Hmarks'].
Qed.

(** The same for the whole of [run_once]. *)
Lemma run_once_log settings today state m :
  exists ranked sells buys,
    (ranked = [] \/
     exists cash m1 m2,
       bot.call bot.get_account m = (inr cash, m1) /\
       bot.rank_symbols (bot.watchlist settings) (bot.short_window settings)
         (bot.long_window settings) (bot.data_feed settings) m1 = (inr ranked, m2)) /\
    order_log settings ranked (bot.orders m) sells buys
      (bot.orders (snd (bot.run_once settings today state m))) /\
    match fst (bot.run_once settings today state m) with
    | inr _ =>
        exists st,
          bot.saved (snd (bot.run_once settings today state m)) = bot.saved m ++ [st] /\
          cooldown_marks today state st (sells ++ buys)
    | inl _ => bot.saved (snd (bot.run_once settings today state m)) = bot.saved m
    end.
Proof.
  destruct (bot.call bot.get_account m) as [[e | cash] m1] eqn:Hacc.
  { exists [], [], []. split; [now left |].
    unfold bot.run_once. rewrite (bind_raises _ _ _ _ _ Hacc). simpl.
    destruct (quiet_call bot.get_account m) as [Ho Hs]. rewrite Hacc in Ho, Hs.
    simpl in *. split; [rewrite Ho; apply order_log_start | exact Hs]. }
  destruct (bot.rank_symbols (bot.watchlist settings) (bot.short_window settings)
              (bot.long_window settings) (bot.data_feed settings) m1)
    as [[e | ranked] m2] eqn:Hrank.
  { exists [], [], []. split; [now left |].
    unfold bot.run_once.
    rewrite (bind_returns _ _ _ _ _ Hacc), (bind_raises _ _ _ _ _ Hrank). simpl.
    destruct (quiet_call bot.get_account m) as [Ho Hs]. rewrite Hacc in Ho, Hs.
    destruct (quiet_rank_symbols (bot.watchlist settings) (bot.short_window settings)
                (bot.long_window settings) (bot.data_feed settings) m1) as [Ho' Hs'].
    rewrite Hrank in Ho', Hs'. simpl in *.
    split; [rewrite Ho', Ho; apply order_log_start | congruence]. }
  destruct (run_once_trade settings today state _ _ _ _ _ Hacc Hrank) as (-> & Ho & Hs).
  destruct (trade_log settings today ranked cash state m2) as (sells & buys & Hlog & Hsaved).
  exists ranked, sells, buys.
  split; [right; now exists cash, m1, m2 |].
  rewrite <- Ho, <- Hs. split; [exact Hlog | exact Hsaved].
Qed.
End Log.

Section LogFacts.
Context {W : Type} `{bot.Alpaca W}.
Implicit Types (m : bot.machine W) (x : bot.Ranked) (o : bot.MarketOrderRequest).

Lemma sell_orders_side (ranked : list bot.Ranked) (os : list bot.MarketOrderRequest) :
  Forall (fun o => exists x, x ∈ ranked /\ sell_order_of x o) os ->
  Forall (fun o => bot.side o = bot.SELL) os.
Proof.
  intros Hall. eapply Forall_impl; [exact Hall |].
  intros o (x & _ & _ & Hside & _). exact Hside.
Qed.

Lemma buy_orders_side (settings : bot.Settings) (ranked : list bot.Ranked)
    (os : list bot.MarketOrderRequest) :
  Forall (fun o => exists x, x ∈ ranked /\ buy_order_of settings x o) os ->
  Forall (fun o => bot.side o = bot.BUY) os.
Proof.
  intros Hall. eapply Forall_impl; [exact Hall |].
  intros o (x & _ & _ & Hside & _). exact Hside.
Qed.

(** The rows of a ranking made with a short window of 0, or with one that is
    not shorter than a positive long window, have equal averages. *)
Lemma scored_flat (short_window long_window : Z) (closes : list Q) x :
  scored short_window closes x ->
  ((0 < long_window)%Z -> Z.of_nat (length closes) = long_window) ->
  (short_window = 0 \/ 0 < long_window <= short_window)%Z ->
  bot.ranked_short_avg x = bot.ranked_long_avg x.
Proof.
  intros (Hshort & Hlong & _) Hlen Hwin.
  rewrite slice_from_all in Hshort by lia. congruence.
Qed.

(** So every row of the ranking that [rank_symbols] returns with such
    windows has equal averages, and the trend of the row is their
    difference. *)
Lemma rank_symbols_flat symbols (short_window long_window : Z) feed m ranked m' :
  (short_window = 0 \/ 0 < long_window <= short_window)%Z ->
  bot.rank_symbols symbols short_window long_window feed m = (inr ranked, m') ->
  Forall (fun x => bot.ranked_short_avg x = bot.ranked_long_avg x /\
                   bot.ranked_trend x =
                     (bot.ranked_short_avg x - bot.ranked_long_avg x)%Q) ranked.
Proof.
  intros Hwin Hrank.
  destruct (rank_symbols_scores _ _ _ _ _ _ _ Hrank) as (rows & _ & _ & Hall).
  eapply Forall_impl; [exact Hall |].
  intros x (closes & Hx & Hlen). split.
  - exact (scored_flat _ _ _ _ Hx Hlen Hwin).
  - exact (proj1 (proj2 (proj2 Hx))).
Qed.

(** What is taken out of a list by a test is taken out of every list that
    contains it, repetitions counted. *)
Lemma filter_contained (sym : string) (l1 l2 : list string) :
  l1 ⊆+ l2 -> filter (fun s => s = sym) l1 ⊆+ filter (fun s => s = sym) l2.
Proof.
  induction 1 as [| s l1 l2 _ IH | s t l | s l1 l2 _ IH | l1 l2 l3 _ IH1 _ IH2].
  - constructor.
  - rewrite !filter_cons. destruct (decide (s = sym)); [now constructor | exact IH].
  - rewrite !filter_cons.
    destruct (decide (s = sym)), (decide (t = sym)); try reflexivity.
    apply submseteq_swap.
  - rewrite filter_cons. destruct (decide (s = sym)); [now constructor | exact IH].
  - now transitivity (filter (fun s => s = sym) l2).
Qed.

(** The orders for a symbol are the orders whose symbol it is. *)
Lemma symbols_filter (sym : string) (os : list bot.MarketOrderRequest) :
  map bot.symbol (filter (fun o => bot.symbol o = sym) os) =
  filter (fun s => s = sym) (map bot.symbol os).
Proof.
  induction os as [| o os IH]; [reflexivity |].
  cbn [map]. rewrite !filter_cons. cbn [map].
  destruct (decide (bot.symbol o = sym)); cbn [map]; now rewrite IH.
Qed.

(** Orders split into SELL orders followed by BUY orders in one way only. *)
Lemma split_by_side_unique (sells buys sells' buys' : list bot.MarketOrderRequest) :
  sells ++ buys = sells' ++ buys' ->
  Forall (fun o => bot.side o = bot.SELL) sells ->
  Forall (fun o => bot.side o = bot.SELL) sells' ->
  Forall (fun o => bot.side o = bot.BUY) buys ->
  Forall (fun o => bot.side o = bot.BUY) buys' ->
  sells = sells' /\ buys = buys'.
Proof.
  revert sells'. induction sells as [| o sells IH]; intros sells' Heq Hs Hs' Hb Hb'.
  - destruct sells' as [| o' sells']; [now split |].
    simpl in Heq. subst buys. exfalso.
    apply Forall_cons in Hb as [Hb _]. apply Forall_cons in Hs' as [Hs' _]. congruence.
  - destruct sells' as [| o' sells'].
    + simpl in Heq. subst buys'. exfalso.
      apply Forall_cons in Hb' as [Hb' _]. apply Forall_cons in Hs as [Hs _]. congruence.
    + simpl in Heq. injection Heq as -> Heq.
      apply Forall_cons in Hs as [_ Hs]. apply Forall_cons in Hs' as [_ Hs'].
      destruct (IH _ Heq Hs Hs' Hb Hb') as [-> ->]. now split.
Qed.
(** Rows of a ranking without a repeated symbol are told apart by their
    symbol. *)
Lemma same_symbol_same_row (ranked : list bot.Ranked) x x' :
  NoDup (map bot.ranked_sym ranked) ->
  x ∈ ranked -> x' ∈ ranked -> bot.ranked_sym x = bot.ranked_sym x' -> x = x'.
Proof.
  induction ranked as [| y ranked IH]; simpl; intros Hnodup Hx Hx' Hsym.
  - now apply elem_of_nil in Hx.
  - apply NoDup_cons in Hnodup as [Hy Hnodup].
    assert (Hin : forall z, z ∈ ranked -> bot.ranked_sym z ∈ map bot.ranked_sym ranked).
    { intros z Hz. apply list_elem_of_In, in_map, list_elem_of_In, Hz. }
    apply elem_of_cons in Hx as [-> | Hx]; apply elem_of_cons in Hx' as [-> | Hx'].
    + reflexivity.
    + exfalso. apply Hy. rewrite Hsym. now apply Hin.
    + exfalso. apply Hy. rewrite <- Hsym. now apply Hin.
    + now apply IH.
Qed.
End LogFacts.

(** X12. With a short window of 0, or with a short window that is not
    shorter than a positive long window, every row of the ranking that
    [run_once] works on has a short average that is its long average and a
    trend of zero, and [run_once] submits no order at all. *)
Theorem degenerate_windows_never_trade {W : Type} `{bot.Alpaca W} (settings : bot.Settings)
    (today : Z) (state : bot.State) (m : bot.machine W) :
  (bot.short_window settings = 0 \/
   0 < bot.long_window settings <= bot.short_window settings)%Z ->
  (forall cash m1 ranked m2,
     bot.call bot.get_account m = (inr cash, m1) ->
     bot.rank_symbols (bot.watchlist settings) (bot.short_window settings)
       (bot.long_window settings) (bot.data_feed settings) m1 = (inr ranked, m2) ->
     Forall (fun x => bot.ranked_short_avg x = bot.ranked_long_avg x /\
                      (bot.ranked_trend x == 0)%Q) ranked) /\
  bot.orders (snd (bot.run_once settings today state m)) = bot.orders m.
Proof.
  intros Hwin. split.
  { intros cash m1 ranked m2 _ Hrank.
    eapply Forall_impl; [exact (rank_symbols_flat _ _ _ _ _ _ _ Hwin Hrank) |].
    intros x [Heq Htrend]. split; [exact Heq |].
    rewrite Htrend, Heq. ring. }
  destruct (run_once_log settings today state m)
    as (ranked & sells & buys & Hranked & (-> & Hsells & Hbuys & _) & _).
  assert (Hflat : Forall (fun x => bot.ranked_short_avg x = bot.ranked_long_avg x /\
                                   bot.ranked_trend x =
                                     (bot.ranked_short_avg x - bot.ranked_long_avg x)%Q)
                    ranked).
  { destruct Hranked as [-> | (cash & m1 & m2 & _ & Hrank)]; [constructor |].
    exact (rank_symbols_flat _ _ _ _ _ _ _ Hwin Hrank). }
  rewrite Forall_forall in Hflat.
  destruct sells as [| o sells].
  - destruct buys as [| o buys]; [now rewrite app_nil_r |].
    apply Forall_cons in Hbuys as [(x & Hx & _ & _ & _ & Hpos) _].
    destruct (Hflat x Hx) as [Heq Htrend]. rewrite Htrend, Heq in Hpos. exfalso. lra.
  - apply Forall_cons in Hsells as [(x & Hx & _ & _ & _ & Hlt) _].
    destruct (Hflat x Hx) as [Heq _]. rewrite Heq in Hlt. exfalso. lra.
Qed.

Lemma degenerate_windows_never_trade_witness :
  (exists ranked,
     bot.rank_symbols ["T"; "PFE"] 3 3 "iex" (paper.start (paper.rising_and_falling true)) =
       (inr ranked, paper.start (paper.rising_and_falling true)) /\
     map bot.ranked_sym ranked = ["T"; "PFE"] /\
     Forall (fun x => bot.ranked_short_avg x = bot.ranked_long_avg x /\
                      (bot.ranked_trend x == 0)%Q) ranked) /\
  bot.orders
    (snd (bot.run_once
            {| bot.api_key := "key"; bot.api_secret := "secret"; bot.paper := true;
               bot.data_feed := "iex"; bot.watchlist := ["T"; "PFE"];
               bot.cash_start := 10000; bot.max_shares := 300;
               bot.shares_per_trade := 50; bot.wait_days := 5;
               bot.short_window := 3; bot.long_window := 3 |}
            100 paper.empty_state (paper.start (paper.rising_and_falling true)))) =
  bot.orders (paper.start (paper.rising_and_falling true)).
Proof.
  assert (Hwin : (3 = 0 \/ 0 < 3 <= 3)%Z) by (right; lia).
  destruct (degenerate_windows_never_trade
              {| bot.api_key := "key"; bot.api_secret := "secret"; bot.paper := true;
                 bot.data_feed := "iex"; bot.watchlist := ["T"; "PFE"];
                 bot.cash_start := 10000; bot.max_shares := 300;
                 bot.shares_per_trade := 50; bot.wait_days := 5;
                 bot.short_window := 3; bot.long_window := 3 |}
              100 paper.empty_state (paper.start (paper.rising_and_falling true)) Hwin)
    as [Hrows Horders].
  split; [| exact Horders].
  destruct (bot.rank_symbols ["T"; "PFE"] 3 3 "iex"
              (paper.start (paper.rising_and_falling true))) as [[e | ranked] m2] eqn:Hrank;
    [vm_compute in Hrank; discriminate |].
  exists ranked.
  split; [f_equal; vm_compute in Hrank; now injection Hrank as _ <- |].
  split; [vm_compute in Hrank; now injection Hrank as <- _ |].
  exact (Hrows 10000%Q _ _ _ eq_refl Hrank).
Defined.

(** X13. With [wait_days] of at least one, the orders of a cycle are SELL
    orders followed by BUY orders in which no symbol is bought twice and no
    symbol is bought that was sold in the same cycle. *)
Theorem cooldown_blocks_second_order {W : Type} `{bot.Alpaca W} (settings : bot.Settings)
    (today : Z) (state : bot.State) (m : bot.machine W) :
  (1 <= bot.wait_days settings)%Z ->
  exists sells buys,
    bot.orders (snd (bot.run_once settings today state m)) = bot.orders m ++ sells ++ buys /\
    Forall (fun o => bot.side o = bot.SELL) sells /\
    Forall (fun o => bot.side o = bot.BUY) buys /\
    NoDup (map bot.symbol buys) /\
    Forall (fun o => bot.symbol o ∉ map bot.symbol sells) buys.
Proof.
  intros Hwait.
  destruct (run_once_log settings today state m)
    as (ranked & sells & buys & _ & (Horders & Hsells & Hbuys & Hcool) & _).
  destruct (Hcool Hwait) as [Hnodup Hdisj].
  exists sells, buys. split; [exact Horders |].
  split; [exact (sell_orders_side ranked _ Hsells) |].
  split; [exact (buy_orders_side settings ranked _ Hbuys) |].
  now split.
Qed.

Lemma cooldown_blocks_second_order_witness :
  exists sells buys,
    bot.orders (snd (bot.run_once (paper.settings ["PFE"; "T"; "PFE"]) 100 paper.empty_state
                       (paper.start (paper.rising_and_falling true)))) =
      [] ++ sells ++ buys /\
    Forall (fun o => bot.side o = bot.SELL) sells /\
    Forall (fun o => bot.side o = bot.BUY) buys /\
    NoDup (map bot.symbol buys) /\
    Forall (fun o => bot.symbol o ∉ map bot.symbol sells) buys.
Proof.
  apply (cooldown_blocks_second_order (paper.settings ["PFE"; "T"; "PFE"]) 100
           paper.empty_state (paper.start (paper.rising_and_falling true))).
  simpl. lia.
Defined.

(** X14. In a cycle that reaches the trading rules, every SELL order is for
    the symbol of a row of the ranking whose short average is below its long
    one, that is, whose trend is negative, and is of a positive quantity;
    every BUY order is for the symbol of a row with a positive trend and is of
    [shares_per_trade] shares. *)
Theorem orders_follow_the_ranking {W : Type} `{bot.Alpaca W} (settings : bot.Settings)
    (today : Z) (state : bot.State) (m m1 m2 : bot.machine W) (cash : Q)
    (ranked : list bot.Ranked) :
  bot.call bot.get_account m = (inr cash, m1) ->
  bot.rank_symbols (bot.watchlist settings) (bot.short_window settings)
    (bot.long_window settings) (bot.data_feed settings) m1 = (inr ranked, m2) ->
  exists sells buys,
    bot.orders (snd (bot.run_once settings today state m)) = bot.orders m ++ sells ++ buys /\
    Forall (fun o => exists x,
              x ∈ ranked /\ sell_order_of x o /\ (bot.ranked_trend x < 0)%Q) sells /\
    Forall (fun o => exists x, x ∈ ranked /\ buy_order_of settings x o) buys.
Proof.
  intros Hacc Hrank.
  destruct (run_once_trade settings today state _ _ _ _ _ Hacc Hrank) as (-> & Ho & _).
  destruct (trade_log settings today ranked cash state m2)
    as (sells & buys & (Horders & Hsells & Hbuys & _) & _).
  exists sells, buys. split; [now rewrite <- Ho |]. split; [| exact Hbuys].
  destruct (rank_symbols_scores _ _ _ _ _ _ _ Hrank) as (rows & _ & _ & Hall).
  rewrite Forall_forall in Hall.
  eapply Forall_impl; [exact Hsells |].
  intros o (x & Hx & Hsell). exists x. split; [exact Hx |]. split; [exact Hsell |].
  destruct (Hall x Hx) as (closes & (_ & _ & -> & _) & _).
  destruct Hsell as (_ & _ & _ & Hlt). lra.
Qed.

Lemma orders_follow_the_ranking_witness :
  exists sells buys,
    bot.orders (snd (bot.run_once (paper.settings ["PFE"; "T"]) 100 paper.empty_state
                       (paper.start (paper.rising_and_falling true)))) =
      [] ++ sells ++ buys /\
    Forall (fun o => exists x,
              x ∈ [("PFE", 3 # 6, 23 # 2, 33 # 3, 12); ("T", -24 # 6, 36 # 2, 66 # 3, 16)]%Q /\
              sell_order_of x o /\ (bot.ranked_trend x < 0)%Q) sells /\
    Forall (fun o => exists x,
              x ∈ [("PFE", 3 # 6, 23 # 2, 33 # 3, 12); ("T", -24 # 6, 36 # 2, 66 # 3, 16)]%Q /\
              buy_order_of (paper.settings ["PFE"; "T"]) x o) buys.
Proof.
  assert (Hacc : bot.call bot.get_account (paper.start (paper.rising_and_falling true)) =
                 (inr 10000%Q, paper.start (paper.rising_and_falling true))) by reflexivity.
  assert (Hrank : bot.rank_symbols ["PFE"; "T"] 2 3 "iex"
                    (paper.start (paper.rising_and_falling true)) =
                  (inr [("PFE", 3 # 6, 23 # 2, 33 # 3, 12);
                        ("T", -24 # 6, 36 # 2, 66 # 3, 16)]%Q,
                   paper.start (paper.rising_and_falling true))) by reflexivity.
  exact (orders_follow_the_ranking (paper.settings ["PFE"; "T"]) 100 paper.empty_state
           _ _ _ _ _ Hacc Hrank).
Defined.

(** X15. [run_once] saves the state once when it returns, as its last step,
    and not at all when it raises: the last trade days of the orders
    submitted before an exception are not saved. *)
Theorem state_saved_only_on_return {W : Type} `{bot.Alpaca W} (settings : bot.Settings)
    (today : Z) (state : bot.State) (m : bot.machine W) :
  match fst (bot.run_once settings today state m) with
  | inr _ => exists st, bot.saved (snd (bot.run_once settings today state m)) =
                          bot.saved m ++ [st]
  | inl _ => bot.saved (snd (bot.run_once settings today state m)) = bot.saved m
  end.
Proof.
  destruct (run_once_log settings today state m)
    as (ranked & sells & buys & _ & _ & Hsaved).
  destruct (fst (bot.run_once settings today state m)); [exact Hsaved |].
  destruct Hsaved as (st & Hst & _). now exists st.
Qed.

(** X16. When [run_once] returns, the state it has saved holds today as the
    last trade day of every symbol for which the cycle submitted an order, and
    for every other symbol what the loaded state held. *)
Theorem saved_state_marks_traded_symbols {W : Type} `{bot.Alpaca W}
    (settings : bot.Settings) (today : Z) (state : bot.State) (m m' : bot.machine W) :
  bot.run_once settings today state m = (inr tt, m') ->
  exists os st,
    bot.orders m' = bot.orders m ++ os /\
    bot.saved m' = bot.saved m ++ [st] /\
    forall sym,
      (sym ∈ map bot.symbol os ->
       bot.last_trade_day st !! sym = Some (bot.DateStr today)) /\
      (sym ∉ map bot.symbol os ->
       bot.last_trade_day st !! sym = bot.last_trade_day state !! sym).
Proof.
  intros Hrun.
  destruct (run_once_log settings today state m)
    as (ranked & sells & buys & _ & (Horders & _) & Hsaved).
  rewrite Hrun in Horders, Hsaved. simpl in Horders, Hsaved.
  destruct Hsaved as (st & Hst & Hmarks).
  exists (sells ++ buys), st. split; [exact Horders |]. split; [exact Hst |].
  exact Hmarks.
Qed.

Lemma saved_state_marks_traded_symbols_witness :
  exists os st,
    [{| bot.symbol := "T"; bot.qty := 10; bot.side := bot.SELL; bot.time_in_force := bot.DAY |};
     {| bot.symbol := "PFE"; bot.qty := 50; bot.side := bot.BUY; bot.time_in_force := bot.DAY |}] =
      [] ++ os /\
    [bot.set_last_trade_day
       (bot.set_last_trade_day paper.empty_state "T" (bot.DateStr 100))
       "PFE" (bot.DateStr 100)] = [] ++ [st] /\
    forall sym,
      (sym ∈ map bot.symbol os ->
       bot.last_trade_day st !! sym = Some (bot.DateStr 100)) /\
      (sym ∉ map bot.symbol os ->
       bot.last_trade_day st !! sym = bot.last_trade_day paper.empty_state !! sym).
Proof.
  assert (Hrun : bot.run_once (paper.settings ["PFE"; "T"]) 100 paper.empty_state
                   (paper.start (paper.rising_and_falling true)) =
                 (inr tt,
                  {| bot.world := paper.rising_and_falling true;
                     bot.orders :=
                       [{| bot.symbol := "T"; bot.qty := 10; bot.side := bot.SELL;
                           bot.time_in_force := bot.DAY |};
                        {| bot.symbol := "PFE"; bot.qty := 50; bot.side := bot.BUY;
                           bot.time_in_force := bot.DAY |}];
                     bot.saved :=
                       [bot.set_last_trade_day
                          (bot.set_last_trade_day paper.empty_state "T" (bot.DateStr 100))
                          "PFE" (bot.DateStr 100)] |})) by (vm_compute; reflexivity).
  exact (saved_state_marks_traded_symbols _ _ _ _ _ Hrun).
Defined.

(** X17. A cycle submits at most one SELL order and one BUY order for each
    entry of the watchlist: the symbols of its SELL orders, counted with
    their repetitions, are entries of the watchlist, each entry taken at most
    once, and so are the symbols of its BUY orders.  So a symbol is sold at
    most as often as it is written in the watchlist, and bought at most as
    often, and there are no more SELL orders and no more BUY orders than the
    watchlist has entries. *)
Theorem at_most_two_orders_per_entry {W : Type} `{bot.Alpaca W} (settings : bot.Settings)
    (today : Z) (state : bot.State) (m : bot.machine W) :
  exists sells buys,
    bot.orders (snd (bot.run_once settings today state m)) = bot.orders m ++ sells ++ buys /\
    Forall (fun o => bot.side o = bot.SELL) sells /\
    Forall (fun o => bot.side o = bot.BUY) buys /\
    map bot.symbol sells ⊆+ bot.watchlist settings /\
    map bot.symbol buys ⊆+ bot.watchlist settings /\
    (forall sym,
       length (filter (fun o => bot.symbol o = sym) sells) <=
         length (filter (fun s => s = sym) (bot.watchlist settings)) /\
       length (filter (fun o => bot.symbol o = sym) buys) <=
         length (filter (fun s => s = sym) (bot.watchlist settings))) /\
    length sells <= length (bot.watchlist settings) /\
    length buys <= length (bot.watchlist settings).
Proof.
  enough (Hentries : exists sells buys,
            bot.orders (snd (bot.run_once settings today state m)) =
              bot.orders m ++ sells ++ buys /\
            Forall (fun o => bot.side o = bot.SELL) sells /\
            Forall (fun o => bot.side o = bot.BUY) buys /\
            map bot.symbol sells ⊆+ bot.watchlist settings /\
            map bot.symbol buys ⊆+ bot.watchlist settings).
  { destruct Hentries as (sells & buys & Horders & Hside & Hside' & Hsub & Hsub').
    exists sells, buys.
    split; [exact Horders |]. split; [exact Hside |]. split; [exact Hside' |].
    split; [exact Hsub |]. split; [exact Hsub' |]. split.
    - intros sym. split.
      + rewrite <- (length_map bot.symbol), (symbols_filter sym sells).
        apply submseteq_length, filter_contained, Hsub.
      + rewrite <- (length_map bot.symbol), (symbols_filter sym buys).
        apply submseteq_length, filter_contained, Hsub'.
    - split.
      + apply submseteq_length in Hsub. now rewrite length_map in Hsub.
      + apply submseteq_length in Hsub'. now rewrite length_map in Hsub'. }
  destruct (run_once_log settings today state m)
    as (ranked & sells & buys & Hranked & (Horders & Hsells & Hbuys & _) & _).
  destruct Hranked as [-> | (cash & m1 & m2 & Hacc & Hrank)].
  - destruct sells as [| o sells].
    + destruct buys as [| o buys].
      * exists [], []. repeat split; auto; simpl; apply submseteq_nil_l.
      * apply Forall_cons in Hbuys as [(x & Hx & _) _]. now apply elem_of_nil in Hx.
    + apply Forall_cons in Hsells as [(x & Hx & _) _]. now apply elem_of_nil in Hx.
  - destruct (run_once_trade settings today state _ _ _ _ _ Hacc Hrank) as (Hrun & Ho & _).
    destruct (trade_orders settings today ranked cash state m2)
      as (sells' & buys' & Horders' & Hside & Hside' & Hsub & Hsub').
    rewrite <- Hrun, Ho in Horders'.
    destruct (rank_symbols_scores _ _ _ _ _ _ _ Hrank) as (rows & Hsyms & -> & _).
    assert (Hperm : map bot.ranked_sym (spec.stable_sort_desc bot.ranked_trend rows) ≡ₚ
                    bot.watchlist settings).
    { rewrite <- Hsyms. apply Permutation_map, stable_sort_desc_perm. }
    exists sells', buys'. repeat split; auto.
    + rewrite <- Hperm. now apply sublist_submseteq.
    + rewrite <- Hperm. now apply sublist_submseteq.
Qed.

(** X18. When no symbol is twice in the watchlist, a cycle submits at most
    one order for each symbol: no symbol is sold twice, bought twice, or sold
    and bought. *)
Theorem one_order_per_symbol {W : Type} `{bot.Alpaca W} (settings : bot.Settings)
    (today : Z) (state : bot.State) (m : bot.machine W) :
  NoDup (bot.watchlist settings) ->
  exists os,
    bot.orders (snd (bot.run_once settings today state m)) = bot.orders m ++ os /\
    NoDup (map bot.symbol os).
Proof.
  intros Hnodup.
  destruct (run_once_log settings today state m)
    as (ranked & sells & buys & Hranked & (Horders & Hsells & Hbuys & _) & _).
  exists (sells ++ buys). split; [exact Horders |].
  destruct Hranked as [-> | (cash & m1 & m2 & Hacc & Hrank)].
  { destruct sells as [| o sells].
    - destruct buys as [| o buys]; [constructor |].
      apply Forall_cons in Hbuys as [(x & Hx & _) _]. now apply elem_of_nil in Hx.
    - apply Forall_cons in Hsells as [(x & Hx & _) _]. now apply elem_of_nil in Hx. }
  destruct (run_once_trade settings today state _ _ _ _ _ Hacc Hrank) as (Hrun & Ho & _).
  destruct (trade_orders settings today ranked cash state m2)
    as (sells' & buys' & Horders' & Hside & Hside' & Hsub & Hsub').
  rewrite <- Hrun, Ho, Horders in Horders'. apply app_inv_head in Horders'.
  destruct (split_by_side_unique sells buys sells' buys' Horders'
              (sell_orders_side ranked _ Hsells) Hside
              (buy_orders_side settings ranked _ Hbuys) Hside') as [<- <-].
  destruct (rank_symbols_scores _ _ _ _ _ _ _ Hrank) as (rows & Hsyms & Hsorted & Hall).
  assert (Hsymbols : NoDup (map bot.ranked_sym ranked)).
  { rewrite Hsorted, stable_sort_desc_perm, Hsyms. exact Hnodup. }
  rewrite map_app. apply NoDup_app.
  split; [exact (sublist_NoDup _ _ Hsymbols Hsub) |].
  split; [| exact (sublist_NoDup _ _ Hsymbols Hsub')].
  intros sym Hsold Hbought.
  apply list_elem_of_In, in_map_iff in Hsold as (os & <- & Hos).
  apply list_elem_of_In, in_map_iff in Hbought as (ob & Hsame & Hob).
  rewrite Forall_forall in Hsells. rewrite Forall_forall in Hbuys.
  rewrite Forall_forall in Hall.
  destruct (Hsells os (proj2 (list_elem_of_In _ _) Hos)) as (x & Hx & Hsx & _ & _ & Hlt).
  destruct (Hbuys ob (proj2 (list_elem_of_In _ _) Hob)) as (x' & Hx' & Hbx & _ & _ & Hpos).
  assert (x = x') as <-.
  { apply (same_symbol_same_row ranked); auto. congruence. }
  destruct (Hall x Hx) as (closes & (_ & _ & Htrend & _) & _).
  rewrite Htrend in Hpos. lra.
Qed.

Lemma one_order_per_symbol_witness :
  exists os,
    bot.orders (snd (bot.run_once (paper.settings ["PFE"; "T"]) 100 paper.empty_state
                       (paper.start (paper.rising_and_falling true)))) = [] ++ os /\
    NoDup (map bot.symbol os).
Proof.
  apply (one_order_per_symbol (paper.settings ["PFE"; "T"]) 100 paper.empty_state
           (paper.start (paper.rising_and_falling true))).
  simpl. repeat constructor; rewrite ?elem_of_cons, ?elem_of_nil; intuition discriminate.
Defined.

(** ** Messages of the data service *)

Lemma append_cons (a : Ascii.ascii) (s t : string) :
  (String a s ++ t)%string = String a (s ++ t)%string.
Proof. reflexivity. Qed.

Lemma append_nil (t : string) : (""%string ++ t)%string = t.
Proof. reflexivity. Qed.

Lemma prefix_occurs (s1 s2 : string) :
  String.prefix s1 s2 = true <-> exists post, s2 = (s1 ++ post)%string.
Proof.
  revert s2. induction s1 as [| a s1 IH]; intros s2.
  - destruct s2; simpl; split; eauto.
  - destruct s2 as [| b s2]; simpl.
    + split; [discriminate | intros [post Hpost]; rewrite append_cons in Hpost; discriminate].
    + destruct (Ascii.ascii_dec a b) as [-> | Hne].
      * rewrite IH. split; intros [post Hpost]; exists post;
          rewrite append_cons in *; congruence.
      * split; [discriminate |].
        intros [post Hpost]. rewrite append_cons in Hpost. congruence.
Qed.

Lemma index_occurs (s1 s2 : string) :
  (exists n, String.index 0 s1 s2 = Some n) <-> occurs_in s1 s2.
Proof.
  unfold occurs_in. induction s2 as [| b s2 IH].
  - simpl. destruct s1 as [| a s1].
    + split; [intros _; exists ""%string, ""%string; reflexivity | intros _; eauto].
    + split; [intros [n Hn]; discriminate |].
      intros (pre & post & Heq).
      destruct pre; rewrite ?append_nil, !append_cons in Heq; discriminate.
  - change (String.index 0 s1 (String b s2))
      with (if String.prefix s1 (String b s2) then Some 0%nat
            else match String.index 0 s1 s2 with
                 | Some n => Some (S n)
                 | None => None
                 end).
    destruct (String.prefix s1 (String b s2)) eqn:Hprefix.
    + split; [intros _ | eauto].
      apply prefix_occurs in Hprefix as [post Hpost]. exists ""%string, post. exact Hpost.
    + split.
      * intros [n Hn]. destruct (String.index 0 s1 s2) as [k |] eqn:Hk; [| discriminate].
        destruct (proj1 IH (ex_intro _ k eq_refl)) as (pre & post & ->).
        exists (String b pre), post. reflexivity.
      * intros (pre & post & Heq). destruct pre as [| c pre].
        -- rewrite append_nil in Heq. exfalso.
           assert (String.prefix s1 (String b s2) = true)
             by (apply prefix_occurs; now exists post).
           congruence.
        -- rewrite append_cons in Heq. injection Heq as <- ->.
           destruct (proj2 IH (ex_intro _ pre (ex_intro _ post eq_refl))) as [k ->].
           eauto.
Qed.

Lemma str_in_occurs (needle hay : string) :
  bot.str_in needle hay = true <-> occurs_in needle hay.
Proof.
  rewrite <- index_occurs. unfold bot.str_in.
  destruct (String.index 0 needle hay); split; eauto; try discriminate.
  intros [n Hn]. discriminate.
Qed.

(** X19. What leaves [get_last_n_closes] when [get_stock_bars] raises: for
    an [APIError] whose message has both "subscription does not permit" and
    "SIP" in it, the [RuntimeError] about the SIP feed; for another
    [APIError] whose message has "401", "Unauthorized" or "Authorization
    Required" in it, the [RuntimeError] about the credentials; the exception
    itself in every other case. *)
Theorem data_errors_are_explained {W : Type} `{bot.Alpaca W} (symbol feed : string) (n : Z)
    (m : bot.machine W) (e : bot.upstream_exn) (w : W) :
  bot.get_stock_bars symbol feed (bot.world m) = (inl e, w) ->
  let raised := fst (bot.get_last_n_closes symbol n feed m) in
  let sip msg := occurs_in "subscription does not permit" msg /\ occurs_in "SIP" msg in
  let unauthorized msg :=
    occurs_in "401" msg \/ occurs_in "Unauthorized" msg \/
    occurs_in "Authorization Required" msg in
  (forall msg, e = bot.APIError msg -> sip msg ->
     raised = inl (bot.RuntimeError bot.SipNotPermitted)) /\
  (forall msg, e = bot.APIError msg -> ~ sip msg -> unauthorized msg ->
     raised = inl (bot.RuntimeError bot.Unauthorized401)) /\
  (forall msg, e = bot.APIError msg -> ~ sip msg -> ~ unauthorized msg ->
     raised = inl (bot.Upstream e)) /\
  (forall name, e = bot.OtherException name -> raised = inl (bot.Upstream e)).
Proof.
  intros Hfetch raised sip unauthorized. subst raised.
  rewrite (get_last_n_closes_failed _ _ _ _ _ _ Hfetch). simpl.
  assert (Hsip : forall msg,
            bot.str_in "subscription does not permit" msg && bot.str_in "SIP" msg = true <->
            sip msg).
  { intros msg. unfold sip. now rewrite andb_true_iff, !str_in_occurs. }
  assert (Hun : forall msg,
            bot.str_in "401" msg || bot.str_in "Unauthorized" msg
            || bot.str_in "Authorization Required" msg = true <-> unauthorized msg).
  { intros msg. unfold unauthorized. rewrite !orb_true_iff, !str_in_occurs. tauto. }
  repeat split.
  - intros msg -> Hmsg. simpl. apply Hsip in Hmsg. now rewrite Hmsg.
  - intros msg -> Hno Hmsg. simpl.
    destruct (_ && _) eqn:Hs; [exfalso; apply Hno, Hsip, Hs |].
    apply Hun in Hmsg. now rewrite Hmsg.
  - intros msg -> Hno Hno'. simpl.
    destruct (_ && _) eqn:Hs; [exfalso; apply Hno, Hsip, Hs |].
    destruct (_ || _) eqn:Hu; [exfalso; apply Hno', Hun, Hu | reflexivity].
  - now intros name ->.
Qed.

Lemma data_errors_are_explained_witness :
  fst (bot.get_last_n_closes "PFE" 3 "iex" outage.start) =
  inl (bot.RuntimeError bot.Unauthorized401).
Proof.
  refine (proj1 (proj2 (data_errors_are_explained "PFE" "iex" 3 outage.start
                          (bot.APIError "HTTP 401 Unauthorized") tt eq_refl))
            "HTTP 401 Unauthorized" eq_refl _ _).
  - intros [Hsip _]. apply str_in_occurs in Hsip. discriminate.
  - left. apply str_in_occurs. reflexivity.
Defined.

(** ** The sell pass and the last trade days *)

Section SellPass.
Context {W : Type} `{bot.Alpaca W}.
Implicit Types (m : bot.machine W) (x : bot.Ranked).

Lemma sell_loop_ignores_state today (ranked : list bot.Ranked) (cash : Q)
    (state state' : bot.State) m :
  snd (bot.for_in (bot.sell_body today) ranked (cash, state) m) =
    snd (bot.for_in (bot.sell_body today) ranked (cash, state') m) /\
  match fst (bot.for_in (bot.sell_body today) ranked (cash, state) m),
        fst (bot.for_in (bot.sell_body today) ranked (cash, state') m) with
  | inr vars, inr vars' => fst vars = fst vars'
  | inl e, inl e' => e = e'
  | _, _ => False
  end.
Proof.
  revert cash state state' m.
  induction ranked as [| x ranked IH]; intros cash state state' m; simpl.
  - now split.
  - unfold bot.bind.
    destruct (sell_body_cases today x cash state m) as (q & m1 & Hq & _ & _ & Hcases).
    destruct (sell_body_cases today x cash state' m) as (q' & m1' & Hq' & _ & _ & Hcases').
    rewrite Hq in Hq'. injection Hq' as <- <-.
    cbv zeta in Hcases, Hcases'.
    destruct (Z.ltb_spec 0 q) as [Hpos | Hnpos];
      [destruct (Qlt_le_dec (bot.ranked_short_avg x) (bot.ranked_long_avg x)) as [Hlt | Hge] |].
    + assert (Hsell := sell_body_cases today x cash state m).
      destruct x as [[[[sym trend] short_avg] long_avg] latest].
      cbn [bot.ranked_sym bot.ranked_short_avg bot.ranked_long_avg bot.ranked_latest] in *.
      rewrite (sell_body_sells today sym trend _ _ latest cash state m q m1 Hq Hpos Hlt).
      rewrite (sell_body_sells today sym trend _ _ latest cash state' m q m1 Hq Hpos Hlt).
      destruct (fst (bot.submit_order _ (bot.world m1))) as [e | []]; [now split |].
      apply IH.
    + destruct x as [[[[sym trend] short_avg] long_avg] latest].
      cbn [bot.ranked_sym bot.ranked_short_avg bot.ranked_long_avg bot.ranked_latest] in *.
      rewrite (sell_body_keeps today sym trend _ _ latest cash state m q m1 Hq)
        by (intros [_ Hlt]; lra).
      rewrite (sell_body_keeps today sym trend _ _ latest cash state' m q m1 Hq)
        by (intros [_ Hlt]; lra).
      apply IH.
    + destruct x as [[[[sym trend] short_avg] long_avg] latest].
      cbn [bot.ranked_sym bot.ranked_short_avg bot.ranked_long_avg bot.ranked_latest] in *.
      rewrite (sell_body_keeps today sym trend _ _ latest cash state m q m1 Hq)
        by (intros [Hpos _]; lia).
      rewrite (sell_body_keeps today sym trend _ _ latest cash state' m q m1 Hq)
        by (intros [Hpos _]; lia).
      apply IH.
Qed.
End SellPass.

(** X20. The sell pass does not read the last trade days: started with any
    two states, it submits the same orders, leaves the same world and, if it
    returns, the same running cash.  A position is sold however recently its
    symbol was traded. *)
Theorem sell_pass_ignores_cooldown {W : Type} `{bot.Alpaca W} (today : Z)
    (ranked : list bot.Ranked) (cash : Q) (state state' : bot.State) (m : bot.machine W) :
  snd (bot.for_in (bot.sell_body today) ranked (cash, state) m) =
    snd (bot.for_in (bot.sell_body today) ranked (cash, state') m) /\
  match fst (bot.for_in (bot.sell_body today) ranked (cash, state) m),
        fst (bot.for_in (bot.sell_body today) ranked (cash, state') m) with
  | inr vars, inr vars' => fst vars = fst vars'
  | inl e, inl e' => e = e'
  | _, _ => False
  end.
Proof. apply sell_loop_ignores_state. Qed.
